(** * Lifecycle of three small Go HTTP services

    The repository holds three programs, each a [package main]:
    - [src/main.go]: the basic service on port 8080 (module [Basic]);
    - the first file of [src/unnamed/part_000]: the service on port 8090
      with a request counter, a heartbeat and a background worker
      (module [Heartbeat]);
    - the second file of [src/unnamed/part_000]: the container service with
      JSON logging, log levels and the request-id middleware
      (module [Container]).

    Each [main] builds a [ServeMux], starts [ListenAndServe] on a goroutine,
    blocks on a signal channel and then calls [server.Shutdown] with a
    timeout.  Module [Lifecycle] embeds that control flow as a step function
    over a process state. *)

From Stdlib Require Import ZArith List String Ascii Bool Lia.
From stdpp Require Import base gmap strings list.

Open Scope string_scope.
Open Scope Z_scope.

(** ** Machine integers *)

(** [uint64] arithmetic wraps around modulo [2^64]. *)
Definition uint64_mod : Z := 2 ^ 64.
Definition uint64_max : Z := uint64_mod - 1.
Definition wrap64 (n : Z) : Z := n mod uint64_mod.

(** [atomic.AddUint64(&x, delta)]: the new value, wrapped. *)
Definition AddUint64 (x delta : Z) : Z := wrap64 (x + delta).

(** ** Errors, log records *)

(** The error values the programs compare against or print.
    [ErrServerClosed] is [http.ErrServerClosed], [DeadlineExceeded] is the
    error of an expired context, [ErrOther] any other error with its text. *)
Inductive error : Type :=
| ErrServerClosed
| DeadlineExceeded
| ErrOther (msg : string).

Definition error_eqb (a b : error) : bool :=
  match a, b with
  | ErrServerClosed, ErrServerClosed => true
  | DeadlineExceeded, DeadlineExceeded => true
  | ErrOther x, ErrOther y => String.eqb x y
  | _, _ => false
  end.

(** [err.Error()] *)
Definition Error (e : error) : string :=
  match e with
  | ErrServerClosed => "http: Server closed"
  | DeadlineExceeded => "context deadline exceeded"
  | ErrOther msg => msg
  end.

(** Go's [any] as far as the programs log it.  [VTime] and [VDur] stand for
    a [time.Time] (ms on the process clock) and a [time.Duration] (ns); their
    textual rendering is the standard library's and is not modelled. *)
Inductive Value : Type :=
| VStr (s : string)
| VInt (n : Z)
| VBool (b : bool)
| VTime (t : nat)
| VDur (d : Z)
| VErr (e : error).

(** One line written to standard output: [Println], [Printf] with its
    format and arguments, or a JSON object of the container service. *)
Inductive LogLine : Type :=
| Println (s : string)
| Printf (fmt : string) (args : list Value)
| Json (entry : gmap string Value).

(** ** Requests and response writers (the part of [net/http] the handlers use) *)

Record Request : Type := {
  Method : string;
  Path : string;
  RemoteAddr : string;
  Header : gmap string (list string)
}.

(** [h.Get(key)]: the first value stored under the key, or the empty string. *)
Definition Header_Get (h : gmap string (list string)) (key : string) : string :=
  match h !! key with
  | Some (v :: _) => v
  | _ => ""
  end.

(** [h.Set(key, value)] replaces whatever was stored under the key. *)
Definition Header_Set (h : gmap string (list string)) (key value : string)
  : gmap string (list string) :=
  <[key := [value]]> h.

Definition UserAgent (r : Request) : string := Header_Get (Header r) "User-Agent".

(** The calls a handler makes on its [http.ResponseWriter], in order. *)
Inductive WCall : Type :=
| W_HeaderSet (key value : string)
| W_WriteHeader (code : Z)
| W_Write (data : string).

(** The server side of a response: the header map the handler edits, and
    what has gone to the client (status line, header snapshot, body). *)
Record ResponseW : Type := {
  hdr : gmap string (list string);
  wroteHeader : bool;
  status : Z;
  sent : gmap string (list string);
  body : string
}.

Definition newResponseW : ResponseW :=
  {| hdr := ∅; wroteHeader := false; status := 0; sent := ∅; body := "" |}.

(** [WriteHeader] sends the status line with the headers as they are now;
    a second call is ignored. *)
Definition rw_WriteHeader (code : Z) (w : ResponseW) : ResponseW :=
  if wroteHeader w then w
  else {| hdr := hdr w; wroteHeader := true; status := code;
          sent := hdr w; body := body w |}.

(** [Write] sends [WriteHeader(200)] first when no header was written. *)
Definition rw_Write (data : string) (w : ResponseW) : ResponseW :=
  let w1 := rw_WriteHeader 200 w in
  {| hdr := hdr w1; wroteHeader := wroteHeader w1; status := status w1;
     sent := sent w1; body := body w1 +:+ data |}.

Definition rw_HeaderSet (key value : string) (w : ResponseW) : ResponseW :=
  {| hdr := Header_Set (hdr w) key value; wroteHeader := wroteHeader w;
     status := status w; sent := sent w; body := body w |}.

Definition rw_call (w : ResponseW) (c : WCall) : ResponseW :=
  match c with
  | W_HeaderSet k v => rw_HeaderSet k v w
  | W_WriteHeader code => rw_WriteHeader code w
  | W_Write data => rw_Write data w
  end.

(** When the handler returns without writing, the server sends 200. *)
Definition rw_finish (w : ResponseW) : ResponseW := rw_WriteHeader 200 w.

Definition respond (calls : list WCall) : ResponseW :=
  rw_finish (fold_left rw_call calls newResponseW).

(** ** Process memory shared by the handlers of one program *)

(** [out] is standard output; [requestCount] is the global of the heartbeat
    service, [reqCounter] the global of the container service; [now] is the
    process clock in milliseconds. *)
Record World : Type := {
  out : list LogLine;
  requestCount : Z;
  reqCounter : Z;
  now : nat
}.

Definition emit (l : LogLine) (σ : World) : World :=
  {| out := out σ ++ [l]; requestCount := requestCount σ;
     reqCounter := reqCounter σ; now := now σ |}.

Definition set_requestCount (n : Z) (σ : World) : World :=
  {| out := out σ; requestCount := n; reqCounter := reqCounter σ; now := now σ |}.

Definition set_reqCounter (n : Z) (σ : World) : World :=
  {| out := out σ; requestCount := requestCount σ; reqCounter := n; now := now σ |}.

Definition advance (σ : World) : World :=
  {| out := out σ; requestCount := requestCount σ;
     reqCounter := reqCounter σ; now := S (now σ) |}.

(** What the environment supplies while one request is handled: the value
    of [rand.Int63()] and the nanoseconds between [time.Now()] at the start
    of the middleware and [time.Since(start)] at its end. *)
Record HEnv : Type := {
  rnd : Z;
  elapsed_ns : Z
}.

(** A handler: its effect on the process memory and the calls it makes on
    the response writer it is given. *)
Definition Handler : Type := HEnv -> Request -> World -> World * list WCall.

(** [http.ServeMux] with the two patterns every program registers: the
    exact path [/health], and [/], which matches every other path. *)
Definition ServeMux (root health : Handler) : Handler :=
  fun env r σ =>
    if String.eqb (Path r) "/health" then health env r σ else root env r σ.

(** ** The basic service, [src/main.go] *)

Module Basic.

(** [logRequest]: one formatted line per request. *)
Definition logRequest (r : Request) (σ : World) : World :=
  emit (Printf "request method=%s path=%s remote=%s user_agent=%q"
          [VStr (Method r); VStr (Path r); VStr (RemoteAddr r); VStr (UserAgent r)]) σ.

(** The handler registered on [/]; [debug] is the package variable. *)
Definition rootHandler (debug : bool) : Handler :=
  fun _ r σ =>
    let σ1 := logRequest r σ in
    let σ2 := if debug then emit (Println "[DEBUG] handling root request") σ1 else σ1 in
    (σ2, [W_WriteHeader 200; W_Write ("Hello from Go on port 8080!" +:+ String "010" "")]).

(** The handler registered on [/health]. *)
Definition healthHandler : Handler :=
  fun _ r σ => (logRequest r σ, [W_WriteHeader 200; W_Write "ok"]).

Definition mux (debug : bool) : Handler := ServeMux (rootHandler debug) healthHandler.

End Basic.

(** ** The heartbeat service, first file of [src/unnamed/part_000] *)

Module Heartbeat.

(** The handler registered on [/]: counts the request, logs it, answers. *)
Definition rootHandler : Handler :=
  fun _ r σ =>
    let σ1 := set_requestCount (AddUint64 (requestCount σ) 1) σ in
    let σ2 := emit (Printf "request received method=%s path=%s remote=%s"
                      [VStr (Method r); VStr (Path r); VStr (RemoteAddr r)]) σ1 in
    (σ2, [W_WriteHeader 200; W_Write ("hello" +:+ String "010" "")]).

(** The handler registered on [/health]. *)
Definition healthHandler : Handler :=
  fun _ r σ => (σ, [W_WriteHeader 200; W_Write "ok"]).

Definition mux : Handler := ServeMux rootHandler healthHandler.

Definition second_ns : Z := 1000000000.

(** [d.Truncate(time.Second)]: rounding toward zero to a whole second. *)
Definition Truncate_second (d : Z) : Z := Z.quot d second_ns * second_ns.

(** One iteration of the [heartbeat] loop, [interval] in nanoseconds;
    [lag] is the time since the tick [t] was sent, so that
    [time.Since(t.Add(-interval))] is [lag + interval].  The counter is
    read with [atomic.LoadUint64] and only printed. *)
Definition heartbeat (interval lag : Z) (σ : World) : World :=
  emit (Printf "heartbeat alive=true uptime=%s requests=%d"
          [VDur (Truncate_second (lag + interval)); VInt (requestCount σ)]) σ.

(** One iteration of the [backgroundWorker] loop. *)
Definition backgroundWorker (σ : World) : World :=
  emit (Println "background job completed") (emit (Println "background job started") σ).

End Heartbeat.

(** ** [strconv] formatting, as used by [requestID] *)

(** A digit below 36 as [strconv] prints it: [0-9], then [a-z]. *)
Definition digit_char (d : N) : ascii :=
  if (d <? 10)%N then ascii_of_N (48 + d) else ascii_of_N (87 + d).

(** Digits of [n] in [base], most significant first, in front of [acc]. *)
Fixpoint format_digits (fuel : nat) (base n : N) (acc : string) : string :=
  match fuel with
  | O => acc
  | S fuel' =>
      let acc' := String (digit_char (n mod base)) acc in
      if (n / base =? 0)%N then acc' else format_digits fuel' base (n / base) acc'
  end.

(** [strconv.FormatUint(n, base)] for a [uint64]; 64 digits always suffice. *)
Definition FormatUint (n : Z) (base : Z) : string :=
  format_digits 64 (Z.to_N base) (Z.to_N n) "".

(** [strconv.FormatInt(n, base)] for an [int64]: a sign, then the magnitude. *)
Definition FormatInt (n : Z) (base : Z) : string :=
  if n <? 0 then "-" +:+ FormatUint (- n) base else FormatUint n base.

(** Reading a decimal number back off the front of a string: the value
    of the digits up to the first character that is not one. *)
Definition digit_value (c : ascii) : option N :=
  let n := N_of_ascii c in
  if ((48 <=? n) && (n <? 58))%N then Some (n - 48)%N else None.

Fixpoint parse_decimal (s : string) (acc : N) : N :=
  match s with
  | EmptyString => acc
  | String c rest =>
      match digit_value c with
      | Some d => parse_decimal rest (acc * 10 + d)
      | None => acc
      end
  end.

(** ** The container service, second file of [src/unnamed/part_000] *)

Module Container.

(** [type LogLevel int] with the [iota] constants. *)
Definition LogLevel : Type := Z.
Definition DEBUG : LogLevel := 0.
Definition INFO : LogLevel := 1.
Definition WARN : LogLevel := 2.
Definition ERROR : LogLevel := 3.

(** [func (l LogLevel) String() string] *)
Definition LogLevel_String (l : LogLevel) : string :=
  if l =? DEBUG then "debug"
  else if l =? INFO then "info"
  else if l =? WARN then "warn"
  else if l =? ERROR then "error"
  else "unknown".

(** [func parseLogLevel(v string) LogLevel] *)
Definition parseLogLevel (v : string) : LogLevel :=
  if String.eqb v "debug" then DEBUG
  else if String.eqb v "warn" then WARN
  else if String.eqb v "error" then ERROR
  else INFO.

(** [type Logger struct]; the wrapped [*log.Logger] writes to standard
    output without prefix or flags, which is [out] of the process memory. *)
Record Logger : Type := { level : LogLevel }.

Definition NewLogger (lvl : LogLevel) : Logger := {| level := lvl |}.

(** [func (lg *Logger) log]: nothing below the logger's level; otherwise
    the entry with [ts], [level] and [msg], overwritten by [fields] key by
    key, marshalled and printed. *)
Definition Logger_log (lg : Logger) (lvl : LogLevel) (msg : string)
    (fields : gmap string Value) (σ : World) : World :=
  if lvl <? level lg then σ
  else
    let entry : gmap string Value :=
      <["msg" := VStr msg]>
        (<["level" := VStr (LogLevel_String lvl)]>
           (<["ts" := VTime (now σ)]> ∅)) in
    emit (Json (fields ∪ entry)) σ.

Definition Logger_Debug (lg : Logger) := Logger_log lg DEBUG.
Definition Logger_Info (lg : Logger) := Logger_log lg INFO.
Definition Logger_Warn (lg : Logger) := Logger_log lg WARN.
Definition Logger_Error (lg : Logger) := Logger_log lg ERROR.

(** [type statusRecorder struct]: the embedded [ResponseWriter] is the
    writer the middleware was given; only [status] is the recorder's own. *)
Record statusRecorder : Type := { rec_status : Z }.

(** [func (r *statusRecorder) WriteHeader(code int)]: records the code and
    passes the call on to the embedded writer. *)
Definition statusRecorder_WriteHeader (code : Z) (r : statusRecorder)
  : statusRecorder * list WCall :=
  ({| rec_status := code |}, [W_WriteHeader code]).

(** A call made on the recorder: [WriteHeader] is the recorder's method,
    [Header] and [Write] are promoted from the embedded writer. *)
Definition recorder_call (acc : statusRecorder * list WCall) (c : WCall)
  : statusRecorder * list WCall :=
  match c with
  | W_WriteHeader code =>
      let '(r', fwd) := statusRecorder_WriteHeader code (fst acc) in
      (r', (snd acc ++ fwd)%list)
  | _ => (fst acc, (snd acc ++ [c])%list)
  end.

(** The calls of a handler that was handed the recorder, one by one. *)
Definition via_recorder (r : statusRecorder) (calls : list WCall)
  : statusRecorder * list WCall :=
  fold_left recorder_call calls (r, []).

(** [func requestID() string] *)
Definition requestID (env : HEnv) (σ : World) : string * World :=
  let id := AddUint64 (reqCounter σ) 1 in
  (FormatUint id 10 +:+ "-" +:+ FormatInt (rnd env) 36, set_reqCounter id σ).

(** [d.Milliseconds()]: integer division of the nanoseconds. *)
Definition Milliseconds (d : Z) : Z := Z.quot d 1000000.

(** [func withMiddleware(next http.Handler, logger *Logger) http.Handler] *)
Definition withMiddleware (next : Handler) (logger : Logger) : Handler :=
  fun env r σ =>
    let rec := {| rec_status := 200 |} in
    let inbound := Header_Get (Header r) "X-Request-Id" in
    let '(rid, σ1) :=
      if String.eqb inbound "" then requestID env σ else (inbound, σ) in
    let σ2 :=
      Logger_Debug logger "request started"
        (<["request_id" := VStr rid]>
           (<["method" := VStr (Method r)]>
              (<["path" := VStr (Path r)]> ∅))) σ1 in
    let '(σ3, calls) := next env r σ2 in
    let '(rec', fwd) := via_recorder rec calls in
    let σ4 :=
      Logger_Info logger "request completed"
        (<["request_id" := VStr rid]>
           (<["method" := VStr (Method r)]>
              (<["path" := VStr (Path r)]>
                 (<["status" := VInt (rec_status rec')]>
                    (<["duration" := VInt (Milliseconds (elapsed_ns env))]> ∅))))) σ3 in
    (σ4, W_HeaderSet "X-Request-Id" rid :: fwd).

(** The handler registered on [/]: writes the body without [WriteHeader]. *)
Definition rootHandler : Handler :=
  fun _ _ σ => (σ, [W_Write ("hello from containerized go service" +:+ String "010" "")]).

(** The handler registered on [/health]. *)
Definition healthHandler : Handler :=
  fun _ _ σ => (σ, [W_WriteHeader 200; W_Write "ok"]).

Definition mux : Handler := ServeMux rootHandler healthHandler.

(** [handler := withMiddleware(mux, logger)] *)
Definition handler (logger : Logger) : Handler := withMiddleware mux logger.

End Container.

(** ** The process: [main], the serving goroutine and the server *)

(** The three [main] functions have the same shape and are embedded
    together, with the program as a parameter:

    - [main] builds the mux and the server, starts the goroutine that
      calls [server.ListenAndServe()], subscribes a channel to [SIGINT]
      and [SIGTERM], receives from it, logs, calls [server.Shutdown] with a
      context that times out, logs what [Shutdown] returned and returns;
    - the goroutine logs and exits the process with status 1 when
      [ListenAndServe] returns an error that is neither nil nor
      [http.ErrServerClosed].

    The process is a state ([Proc]) and a step function ([step]) over
    events: the moves of the two goroutines, and what the environment does
    (a listener gets bound, [ListenAndServe] returns, a signal arrives, a
    client connects, a millisecond passes).  The server itself is
    [net/http]; the model keeps of it what its documentation promises and
    the programs rely on:

    - [ListenAndServe] always returns a non-nil error, and after
      [Shutdown] that error is [ErrServerClosed] ([listen_contract]);
    - [Shutdown] first closes the listener, then waits until no connection
      is active and returns nil, or returns the context's error when the
      context expires first; it does not interrupt active connections
      ([Shutdown_begin], [Shutdown_poll], [Shutdown_wait]).  Its polling is
      taken at the granularity of the clock, one millisecond.

    The states of the specification's handle are not a variable of the
    programs; [handle_state] reads them off the program points. *)

Module Lifecycle.

(** Which of the three programs runs. *)
Inductive Variant : Type := VBasic | VHeartbeat | VContainer.

(** The environment of the process: its variables, and the value of
    [time.ParseDuration(os.Getenv("STARTUP_DELAY"))] in nanoseconds
    (zero when the variable does not parse). *)
Record OsEnv : Type := {
  vars : gmap string string;
  startupDelay : Z
}.

(** [os.Getenv]: the empty string for an unset variable. *)
Definition Getenv (e : OsEnv) (key : string) : string := default "" (vars e !! key).

Definition debug (e : OsEnv) : bool := String.eqb (Getenv e "DEBUG") "true".

Definition port (e : OsEnv) : string :=
  let p := Getenv e "PORT" in if String.eqb p "" then "8080" else p.

Definition logger (e : OsEnv) : Container.Logger :=
  Container.NewLogger (Container.parseLogLevel (Getenv e "LOG_LEVEL")).

(** [server.Addr] *)
Definition Addr (v : Variant) (e : OsEnv) : string :=
  match v with
  | VBasic => ":8080"
  | VHeartbeat => ":8090"
  | VContainer => ":" +:+ port e
  end.

(** [server.Handler] *)
Definition handler (v : Variant) (e : OsEnv) : Handler :=
  match v with
  | VBasic => Basic.mux (debug e)
  | VHeartbeat => Heartbeat.mux
  | VContainer => Container.handler (logger e)
  end.

(** [time.Second], in the milliseconds of the process clock. *)
Definition Second : nat := 1000.

(** The timeout of the context handed to [Shutdown]: [5*time.Second] in
    two programs, [10*time.Second] in the third. *)
Definition shutdownTimeout (v : Variant) : nat :=
  match v with
  | VBasic => 5 * Second
  | VHeartbeat => 5 * Second
  | VContainer => 10 * Second
  end.

(** The signals [signal.Notify] subscribes the channel to. *)
Inductive Signal : Type := SIGINT | SIGTERM.

(** The states of the specification's server handle. *)
Inductive State : Type := Idle | Starting | Running | Stopping | Stopped | Failed.

(** Where [main] is: before [go func], blocked on the signal channel,
    inside [server.Shutdown] with so many milliseconds left on the context,
    or past the [if] that logs what [Shutdown] returned. *)
Inductive MainPC : Type :=
| MInit
| MWaitSignal
| MShutdown (ms : nat)
| MDone (err : option error).

(** Where the goroutine of [go func] is: not started, inside
    [server.ListenAndServe] (before or after the listener is bound), or
    returned from it without exiting the process. *)
Inductive SrvPC : Type :=
| GNotStarted
| GListenAndServe (bound : bool)
| GReturned.

(** A connection with a request in flight: the milliseconds until the
    request has been read and handled, the request, and what the
    environment supplies to its handler. *)
Record Conn : Type := {
  remaining : nat;
  request : Request;
  henv : HEnv
}.

(** The [http.Server]: whether its listener accepts, whether [Shutdown]
    was called, and the connections with a request in flight. *)
Record Server : Type := {
  listening : bool;
  inShutdown : bool;
  conns : list Conn
}.

(** The whole process.  [served] lists the responses sent, each with the
    handle state at that moment and its request; [cut] the connections that
    were open when the process exited; [refused] counts the connection
    attempts that found no listener. *)
Record Proc : Type := {
  mainpc : MainPC;
  srvpc : SrvPC;
  server : Server;
  world : World;
  exit_status : option Z;
  served : list (State * Request * ResponseW);
  cut : list Conn;
  refused : nat
}.

Definition alive (p : Proc) : bool :=
  match exit_status p with None => true | Some _ => false end.

(** The handle state read off the process. *)
Definition handle_state (p : Proc) : State :=
  match exit_status p with
  | Some c => if c =? 0 then Stopped else Failed
  | None =>
      match mainpc p with
      | MInit => Idle
      | MWaitSignal =>
          match srvpc p with
          | GNotStarted => Idle
          | GListenAndServe false => Starting
          | GListenAndServe true => Running
          | GReturned => Failed
          end
      | MShutdown _ => Stopping
      | MDone _ => Stopped
      end
  end.

(** What the environment can do to the process, and the moves of the
    program itself. *)
Inductive Event : Type :=
| EvGo
| EvBound
| EvListenReturn (err : option error)
| EvSignal (s : Signal)
| EvDial (d : nat) (r : Request) (env : HEnv)
| EvTick
| EvShutdownReturn
| EvMainReturn
| EvHeartbeat (lag : Z)
| EvWorker.

(** *** Log lines of [main] *)

Definition w0 : World := {| out := []; requestCount := 0; reqCounter := 0; now := 0 |}.

Definition sleep (ms : nat) (σ : World) : World :=
  {| out := out σ; requestCount := requestCount σ;
     reqCounter := reqCounter σ; now := (now σ + ms)%nat |}.

(** [main] up to the construction of the server. *)
Definition startup (v : Variant) (e : OsEnv) : World :=
  match v with
  | VBasic =>
      emit (Printf ("debug mode: %v" +:+ String "010" "") [VBool (debug e)])
        (emit (Println "service starting") w0)
  | VHeartbeat => emit (Println "service starting") w0
  | VContainer =>
      if 0 <? startupDelay e then
        sleep (Z.to_nat (Container.Milliseconds (startupDelay e)))
          (Container.Logger_Info (logger e) "startup delay"
             (<["delay" := VDur (startupDelay e)]> ∅) w0)
      else w0
  end.

(** First statement of the goroutine. *)
Definition log_listening (v : Variant) (e : OsEnv) (σ : World) : World :=
  match v with
  | VBasic => emit (Println "http server listening on :8080") σ
  | VHeartbeat => emit (Println "http server listening on :8090") σ
  | VContainer =>
      Container.Logger_Info (logger e) "http server starting"
        (<["port" := VStr (port e)]> ∅) σ
  end.

(** The branch of the goroutine that ends the process. *)
Definition log_listen_error (v : Variant) (e : OsEnv) (err : error) (σ : World) : World :=
  match v with
  | VBasic => emit (Printf "listen error: %v" [VErr err]) σ
  | VHeartbeat => emit (Printf "server error: %v" [VErr err]) σ
  | VContainer =>
      Container.Logger_Error (logger e) "http server error"
        (<["error" := VStr (Error err)]> ∅) σ
  end.

Definition log_signal (v : Variant) (e : OsEnv) (σ : World) : World :=
  match v with
  | VBasic => emit (Println "shutdown signal received") σ
  | VHeartbeat => emit (Println "shutdown signal received") σ
  | VContainer => Container.Logger_Warn (logger e) "shutdown signal received" ∅ σ
  end.

(** The [if err := server.Shutdown(ctx); err != nil {...} else {...}]. *)
Definition log_outcome (v : Variant) (e : OsEnv) (err : option error) (σ : World) : World :=
  match err with
  | Some x =>
      match v with
      | VBasic => emit (Printf ("server shutdown error: %v" +:+ String "010" "") [VErr x]) σ
      | VHeartbeat => emit (Printf "graceful shutdown failed: %v" [VErr x]) σ
      | VContainer =>
          Container.Logger_Error (logger e) "graceful shutdown failed"
            (<["error" := VStr (Error x)]> ∅) σ
      end
  | None =>
      match v with
      | VBasic => emit (Println "server shutdown complete") σ
      | VHeartbeat => emit (Println "server stopped cleanly") σ
      | VContainer => Container.Logger_Info (logger e) "server stopped" ∅ σ
      end
  end.

(** *** The server *)

(** The guard of the goroutine: [err != nil && err != http.ErrServerClosed]. *)
Definition fatal (err : option error) : bool :=
  match err with
  | Some x => negb (error_eqb x ErrServerClosed)
  | None => false
  end.

(** What [ListenAndServe] may return: never nil, and [ErrServerClosed]
    exactly when [Shutdown] has been called. *)
Definition listen_contract (srv : Server) (err : option error) : bool :=
  match err with
  | Some x => Bool.eqb (error_eqb x ErrServerClosed) (inShutdown srv)
  | None => false
  end.

(** One millisecond on the connections: a request at its last millisecond
    is handled and answered, the others come one millisecond closer. *)
Fixpoint tick_conns (h : Handler) (cs : list Conn) (σ : World)
  : list Conn * World * list (Request * ResponseW) :=
  match cs with
  | [] => ([], σ, [])
  | c :: cs' =>
      match remaining c with
      | S (S k) =>
          let '(rest, σ', rs) := tick_conns h cs' σ in
          ({| remaining := S k; request := request c; henv := henv c |} :: rest, σ', rs)
      | _ =>
          let '(σ1, calls) := h (henv c) (request c) σ in
          let '(rest, σ', rs) := tick_conns h cs' σ1 in
          (rest, σ', (request c, respond calls) :: rs)
      end
  end.

(** [Shutdown] starts by closing the listener. *)
Definition Shutdown_begin (srv : Server) : Server :=
  {| listening := false; inShutdown := true; conns := conns srv |}.

(** [Shutdown] returns nil once no request is in flight, and the error of
    the context once the context has expired; until then it waits. *)
Definition Shutdown_poll (ms : nat) (srv : Server) : option (option error) :=
  match conns srv with
  | [] => Some None
  | _ :: _ =>
      match ms with
      | O => Some (Some DeadlineExceeded)
      | S _ => None
      end
  end.

Definition with_conns (cs : list Conn) (srv : Server) : Server :=
  {| listening := listening srv; inShutdown := inShutdown srv; conns := cs |}.

(** [Shutdown] from the moment the listener is closed: the result, the
    server and the process memory when it returns, and the responses sent
    meanwhile. *)
Fixpoint Shutdown_wait (h : Handler) (ms : nat) (srv : Server) (σ : World)
  : option error * Server * World * list (Request * ResponseW) :=
  match conns srv with
  | [] => (None, srv, σ, [])
  | _ :: _ =>
      match ms with
      | O => (Some DeadlineExceeded, srv, σ, [])
      | S ms' =>
          let '(cs, σ', rs) := tick_conns h (conns srv) (advance σ) in
          let '(err, srv', σ'', rs') := Shutdown_wait h ms' (with_conns cs srv) σ' in
          (err, srv', σ'', (rs ++ rs')%list)
      end
  end.

(** [server.Shutdown(ctx)] with a context of [timeout] milliseconds. *)
Definition Shutdown (h : Handler) (timeout : nat) (srv : Server) (σ : World)
  : option error * Server * World * list (Request * ResponseW) :=
  Shutdown_wait h timeout (Shutdown_begin srv) σ.

(** The stop sequence of [main]: the context, [Shutdown], and the [if] that
    logs the result. *)
Definition stop (v : Variant) (e : OsEnv) (srv : Server) (σ : World)
  : option error * Server * World * list (Request * ResponseW) :=
  let '(err, srv', σ', rs) := Shutdown (handler v e) (shutdownTimeout v) srv σ in
  (err, srv', log_outcome v e err σ', rs).

(** *** The step function *)

Definition proc_init (v : Variant) (e : OsEnv) : Proc :=
  {| mainpc := MInit; srvpc := GNotStarted;
     server := {| listening := false; inShutdown := false; conns := [] |};
     world := startup v e; exit_status := None;
     served := []; cut := []; refused := 0 |}.

(** [os.Exit(code)], or [main] returning: the process is gone and its open
    connections with it. *)
Definition exit_with (code : Z) (p : Proc) : Proc :=
  {| mainpc := mainpc p; srvpc := srvpc p;
     server := {| listening := false; inShutdown := inShutdown (server p); conns := [] |};
     world := world p; exit_status := Some code;
     served := served p; cut := conns (server p); refused := refused p |}.

Definition set_world (σ : World) (p : Proc) : Proc :=
  {| mainpc := mainpc p; srvpc := srvpc p; server := server p; world := σ;
     exit_status := exit_status p; served := served p; cut := cut p;
     refused := refused p |}.

(** One millisecond of the process: the clock moves and the connections
    with it; [main], if it is inside [Shutdown], has one millisecond less. *)
Definition tick_proc (v : Variant) (e : OsEnv) (pc : MainPC) (p : Proc) : Proc :=
  let '(cs, σ', rs) := tick_conns (handler v e) (conns (server p)) (advance (world p)) in
  {| mainpc := pc; srvpc := srvpc p; server := with_conns cs (server p);
     world := σ'; exit_status := exit_status p;
     served := (served p ++ map (fun x => (handle_state p, fst x, snd x)) rs)%list;
     cut := cut p; refused := refused p |}.

Definition step (v : Variant) (e : OsEnv) (p : Proc) (ev : Event) : option Proc :=
  if negb (alive p) then None
  else
    match ev with
    | EvGo =>
        (* [go func() { ... server.ListenAndServe() ... }()], then
           [signal.Notify] and [<-sig] *)
        match mainpc p with
        | MInit =>
            Some {| mainpc := MWaitSignal; srvpc := GListenAndServe false;
                    server := server p; world := log_listening v e (world p);
                    exit_status := None; served := served p; cut := cut p;
                    refused := refused p |}
        | _ => None
        end
    | EvBound =>
        (* the listener of [ListenAndServe] is bound and accepts *)
        match srvpc p with
        | GListenAndServe false =>
            if inShutdown (server p) then None
            else
              Some {| mainpc := mainpc p; srvpc := GListenAndServe true;
                      server := {| listening := true; inShutdown := false;
                                   conns := conns (server p) |};
                      world := world p; exit_status := None; served := served p;
                      cut := cut p; refused := refused p |}
        | _ => None
        end
    | EvListenReturn err =>
        (* [if err := server.ListenAndServe(); err != nil &&
           err != http.ErrServerClosed { log; os.Exit(1) }] *)
        match srvpc p with
        | GListenAndServe _ =>
            if listen_contract (server p) err then
              match err with
              | Some x =>
                  if fatal err then
                    Some (exit_with 1 (set_world (log_listen_error v e x (world p)) p))
                  else
                    Some {| mainpc := mainpc p; srvpc := GReturned;
                            server := {| listening := false;
                                         inShutdown := inShutdown (server p);
                                         conns := conns (server p) |};
                            world := world p; exit_status := None;
                            served := served p; cut := cut p; refused := refused p |}
              | None => None
              end
            else None
        | _ => None
        end
    | EvSignal _ =>
        (* [<-sig]; the log line; the context; [server.Shutdown(ctx)] begins *)
        match mainpc p with
        | MWaitSignal =>
            Some {| mainpc := MShutdown (shutdownTimeout v); srvpc := srvpc p;
                    server := Shutdown_begin (server p);
                    world := log_signal v e (world p); exit_status := None;
                    served := served p; cut := cut p; refused := refused p |}
        | _ => None
        end
    | EvDial d r env =>
        (* a client connects and sends a request that takes [d] ms *)
        match d with
        | O => None
        | S _ =>
            if listening (server p) then
              Some {| mainpc := mainpc p; srvpc := srvpc p;
                      server := with_conns
                                  ({| remaining := d; request := r; henv := env |}
                                     :: conns (server p)) (server p);
                      world := world p; exit_status := None; served := served p;
                      cut := cut p; refused := refused p |}
            else
              Some {| mainpc := mainpc p; srvpc := srvpc p; server := server p;
                      world := world p; exit_status := None; served := served p;
                      cut := cut p; refused := S (refused p) |}
        end
    | EvTick =>
        match mainpc p with
        | MShutdown ms =>
            match Shutdown_poll ms (server p), ms with
            | None, S ms' => Some (tick_proc v e (MShutdown ms') p)
            | _, _ => None
            end
        | pc => Some (tick_proc v e pc p)
        end
    | EvShutdownReturn =>
        (* [Shutdown] returns; the [if] logs the result *)
        match mainpc p with
        | MShutdown ms =>
            match Shutdown_poll ms (server p) with
            | Some err =>
                Some {| mainpc := MDone err; srvpc := srvpc p; server := server p;
                        world := log_outcome v e err (world p); exit_status := None;
                        served := served p; cut := cut p; refused := refused p |}
            | None => None
            end
        | _ => None
        end
    | EvMainReturn =>
        (* [main] returns: the process exits with status 0 *)
        match mainpc p with
        | MDone _ => Some (exit_with 0 p)
        | _ => None
        end
    | EvHeartbeat lag =>
        (* [go heartbeat(logger, 5*time.Second)] *)
        match v with
        | VHeartbeat =>
            Some (set_world (Heartbeat.heartbeat (5 * Heartbeat.second_ns) lag (world p)) p)
        | _ => None
        end
    | EvWorker =>
        (* [go backgroundWorker(logger, 7*time.Second)] *)
        match v with
        | VHeartbeat => Some (set_world (Heartbeat.backgroundWorker (world p)) p)
        | _ => None
        end
    end.

(** Running a sequence of events from a state. *)
Fixpoint run (v : Variant) (e : OsEnv) (evs : list Event) (p : Proc) : option Proc :=
  match evs with
  | [] => Some p
  | ev :: evs' =>
      match step v e p ev with
      | Some p' => run v e evs' p'
      | None => None
      end
  end.

Definition reachable (v : Variant) (e : OsEnv) (p : Proc) : Prop :=
  exists evs, run v e evs (proc_init v e) = Some p.

(** [main] from the arrival of a signal to the end of the [if]: the signal
    is received, time passes while [Shutdown] waits, [Shutdown] returns. *)
Fixpoint await_shutdown (v : Variant) (e : OsEnv) (fuel : nat) (p : Proc) : option Proc :=
  match step v e p EvShutdownReturn with
  | Some p' => Some p'
  | None =>
      match fuel with
      | O => None
      | S fuel' =>
          match step v e p EvTick with
          | Some p' => await_shutdown v e fuel' p'
          | None => None
          end
      end
  end.

Definition receive_and_stop (v : Variant) (e : OsEnv) (s : Signal) (p : Proc) : option Proc :=
  match step v e p (EvSignal s) with
  | Some p' => await_shutdown v e (shutdownTimeout v) p'
  | None => None
  end.

(** *** Reading the specification's vocabulary off the model *)

(** The position of a state on the chain Idle, Starting, Running,
    Stopping, Stopped; [Failed] is off the chain. *)
Definition rank (s : State) : option nat :=
  match s with
  | Idle => Some 0%nat
  | Starting => Some 1%nat
  | Running => Some 2%nat
  | Stopping => Some 3%nat
  | Stopped => Some 4%nat
  | Failed => None
  end.

Definition terminal (s : State) : bool :=
  match s with
  | Stopped | Failed => true
  | _ => false
  end.

(** A move of the handle that the specification allows: none at all, a
    move forward along the chain, or a failure out of Starting or Running. *)
Definition forward (s s' : State) : bool :=
  match s, s' with
  | Starting, Failed | Running, Failed => true
  | _, _ =>
      match rank s, rank s' with
      | Some i, Some j => (i <=? j)%nat
      | None, None => true
      | _, _ => false
      end
  end.

(** The moves of the handle that the programs make. *)
Definition edge (s s' : State) : bool :=
  match s, s' with
  | Idle, Starting
  | Starting, Running
  | Starting, Stopping
  | Running, Stopping
  | Stopping, Stopped
  | Starting, Failed
  | Running, Failed => true
  | _, _ => false
  end.

Definition stop_invoked (p : Proc) : bool :=
  match mainpc p with
  | MShutdown _ | MDone _ => true
  | _ => false
  end.

(** A listener failure in a trace, and one before the listener was bound. *)
Definition is_listen_failure (ev : Event) : bool :=
  match ev with
  | EvListenReturn err => fatal err
  | _ => false
  end.

Definition is_bound (ev : Event) : bool :=
  match ev with
  | EvBound => true
  | _ => false
  end.

Definition listen_failed (evs : list Event) : bool := existsb is_listen_failure evs.

Definition bind_failed (evs : list Event) : bool :=
  existsb is_listen_failure evs && negb (existsb is_bound evs).

(** What holds of the process at every moment: [Shutdown] has been called
    exactly when [main] is in or past it; a listener that accepts belongs to
    a server that was bound and not shut down; the goroutine exists once
    [main] is past [go func]; [ListenAndServe] has returned quietly only
    after [Shutdown]; and every request in flight has time left. *)
Definition consistent (p : Proc) : Prop :=
  inShutdown (server p) = stop_invoked p
  ∧ (listening (server p) = true →
     inShutdown (server p) = false ∧ srvpc p = GListenAndServe true)
  ∧ (mainpc p = MInit ↔ srvpc p = GNotStarted)
  ∧ (srvpc p = GReturned → stop_invoked p = true)
  ∧ Forall (fun c => (0 < remaining c)%nat) (conns (server p)).




End Lifecycle.

(** ** Concrete inputs used in examples *)

Module Sample.

Import Lifecycle.

Definition env0 : OsEnv := {| vars := ∅; startupDelay := 0 |}.

Definition henv0 : HEnv := {| rnd := 71; elapsed_ns := 2500000 |}.

Definition get_health : Request :=
  {| Method := "GET"; Path := "/health"; RemoteAddr := "10.0.0.7:51234"; Header := ∅ |}.

Definition get_root : Request :=
  {| Method := "GET"; Path := "/"; RemoteAddr := "10.0.0.7:51234"; Header := ∅ |}.

Definition get_root_with_id : Request :=
  {| Method := "GET"; Path := "/"; RemoteAddr := "10.0.0.7:51234";
     Header := <["X-Request-Id" := ["abc-123"]]> ∅ |}.

(** A process memory whose request counter holds the largest [uint64]. *)
Definition world_full : World :=
  {| out := []; requestCount := uint64_max; reqCounter := 0; now := 0 |}.

(** The basic service, listening, with nothing in flight. *)
Definition running : list Event := [EvGo; EvBound].

(** The same with one request in flight that needs eight seconds. *)
Definition slow_request : list Event := [EvGo; EvBound; EvDial (8 * Second) get_root henv0].

(** A health check that arrives while the service runs and is answered
    three milliseconds later, after a termination signal. *)
Definition health_during_stop : list Event :=
  [EvGo; EvBound; EvDial 3 get_health henv0; EvSignal SIGTERM; EvTick; EvTick; EvTick].

(** The listener is bound, then [ListenAndServe] fails while serving. *)
Definition serve_failure : list Event :=
  [EvGo; EvBound; EvListenReturn (Some (ErrOther "accept tcp [::]:8080: accept: operation not permitted"))].

(** The listener cannot be bound. *)
Definition bind_failure : list Event :=
  [EvGo; EvListenReturn (Some (ErrOther "listen tcp :8080: bind: address already in use"))].

Definition after (v : Variant) (evs : list Event) : Proc :=
  default (proc_init v env0) (run v env0 evs (proc_init v env0)).

End Sample.

Import Lifecycle.

(** ** Vocabulary for the properties of the handlers and of the log *)




(** The body each program writes on its root route. *)
Definition greeting (v : Variant) : string :=
  match v with
  | VBasic => "Hello from Go on port 8080!" +:+ String "010" ""
  | VHeartbeat => "hello" +:+ String "010" ""
  | VContainer => "hello from containerized go service" +:+ String "010" ""
  end.




(** The first half of [withMiddleware]: the request id it settles on, and
    the process memory when it calls the wrapped handler. *)
Definition before_next (lg : Container.Logger) (env : HEnv) (r : Request) (σ : World)
  : string * World :=
  let inbound := Header_Get (Header r) "X-Request-Id" in
  let rid_σ := if String.eqb inbound "" then Container.requestID env σ else (inbound, σ) in
  (fst rid_σ,
   Container.Logger_Debug lg "request started"
     (<["request_id" := VStr (fst rid_σ)]>
        (<["method" := VStr (Method r)]> (<["path" := VStr (Path r)]> ∅))) (snd rid_σ)).



(** A line that a logger of the given level may print: a JSON entry whose
    "level" names one of the four levels, not below the logger's. *)
Definition allowed_line (lg : Container.Logger) (l : LogLine) : Prop :=
  ∃ entry lvl,
    l = Json entry
    ∧ Container.level lg <= lvl
    ∧ Container.DEBUG <= lvl <= Container.ERROR
    ∧ entry !! "level" = Some (VStr (Container.LogLevel_String lvl)).

(** The standard keys of a log entry of the container service. *)
Definition standard_keys : gset string := {[ "ts"; "level"; "msg" ]}.

(** ** Proof automation *)

(** A call is not in an explicit list of other calls. *)
Ltac not_in_calls :=
  let H := fresh in
  intros H;
  repeat (apply elem_of_cons in H as [H | H]; [discriminate H |]);
  by apply elem_of_nil in H.

(** Case analysis on a successful step. *)
Ltac step_inv H :=
  unfold step in H;
  repeat match type of H with
    | match ?x with _ => _ end = Some _ => destruct x eqn:?
    | (if ?x then _ else _) = Some _ => destruct x eqn:?
    end;
  try discriminate H; inversion H; subst; clear H.

(** * Properties *)

(** ** Log levels *)

Lemma parseLogLevel_cases (v : string) :
  Container.parseLogLevel v = Container.DEBUG ∧ v = "debug"
  ∨ Container.parseLogLevel v = Container.WARN ∧ v = "warn"
  ∨ Container.parseLogLevel v = Container.ERROR ∧ v = "error"
  ∨ Container.parseLogLevel v = Container.INFO
    ∧ v ≠ "debug" ∧ v ≠ "warn" ∧ v ≠ "error".
Proof.
  unfold Container.parseLogLevel.
  destruct (String.eqb_spec v "debug") as [-> | Hd]; [by left |].
  destruct (String.eqb_spec v "warn") as [-> | Hw]; [by right; left |].
  destruct (String.eqb_spec v "error") as [-> | He]; [by right; right; left |].
  by right; right; right.
Qed.

(** C10.  [parseLogLevel] is a total function that returns [INFO] for every
    string other than "debug", "warn" and "error", the empty string of an
    unset [LOG_LEVEL] included; and for every input the name of the level it
    returns is one of "debug", "info", "warn", "error", never "unknown". *)
Theorem parseLogLevel_defaults_to_info (v : string) :
  (v ≠ "debug" → v ≠ "warn" → v ≠ "error" →
   Container.parseLogLevel v = Container.INFO)
  ∧ Container.parseLogLevel "" = Container.INFO
  ∧ (∀ e, vars e !! "LOG_LEVEL" = None → Container.level (logger e) = Container.INFO)
  ∧ Container.LogLevel_String (Container.parseLogLevel v)
      ∈ ["debug"; "info"; "warn"; "error"]
  ∧ Container.LogLevel_String (Container.parseLogLevel v) ≠ "unknown".
Proof.
  split; [| split; [reflexivity | split]].
  - intros Hd Hw He.
    destruct (parseLogLevel_cases v) as [[_ ?] | [[_ ?] | [[_ ?] | [H _]]]];
      congruence.
  - intros e He. unfold logger, Getenv. by rewrite He.
  - destruct (parseLogLevel_cases v) as [[-> _] | [[-> _] | [[-> _] | [-> _]]]];
      cbn; (split; [| discriminate]).
    + by left.
    + by right; right; left.
    + by right; right; right; left.
    + by right; left.
Qed.

Lemma parseLogLevel_defaults_to_info_witness :
  Container.parseLogLevel "trace" = Container.INFO.
Proof.
  apply (proj1 (parseLogLevel_defaults_to_info "trace")); discriminate.
Defined.


(** ** The request counter of the heartbeat service *)


Lemma AddUint64_range (x d : Z) : 0 <= AddUint64 x d < uint64_mod.
Proof. unfold AddUint64, wrap64. apply Z.mod_pos_bound. reflexivity. Qed.

Lemma requestCount_emit l σ : requestCount (emit l σ) = requestCount σ.
Proof. reflexivity. Qed.

(** After [n] requests to the root route the counter holds [n] modulo
    [2^64]: every [uint64] value is reached. *)
Lemma requestCount_after_requests (n : nat) env r σ :
  0 <= requestCount σ < uint64_mod →
  requestCount (Nat.iter n (fun s => fst (Heartbeat.rootHandler env r s)) σ)
  = wrap64 (requestCount σ + Z.of_nat n).
Proof.
  intros Hσ. induction n as [| n IH].
  - cbn. unfold wrap64. rewrite Z.add_0_r, Z.mod_small; lia.
  - rewrite Nat.iter_succ.
    set (s := Nat.iter n _ σ) in *.
    change (requestCount (fst (Heartbeat.rootHandler env r s)))
      with (AddUint64 (requestCount s) 1).
    rewrite IH. unfold AddUint64, wrap64.
    rewrite Zplus_mod_idemp_l. f_equal. lia.
Qed.






(** ** The middleware of the container service *)

(** The recorder passes every call on to the writer it wraps. *)
Lemma fold_recorder_forwards calls : ∀ r acc,
  snd (fold_left Container.recorder_call calls (r, acc)) = (acc ++ calls)%list.
Proof.
  induction calls as [| c calls IH]; intros r acc; cbn [fold_left].
  - by rewrite app_nil_r.
  - destruct c; cbn [Container.recorder_call Container.statusRecorder_WriteHeader fst snd];
      rewrite IH, <- app_assoc; reflexivity.
Qed.

Lemma via_recorder_forwards r calls :
  snd (Container.via_recorder r calls) = calls.
Proof. unfold Container.via_recorder. by rewrite fold_recorder_forwards. Qed.

(** Without a call of [WriteHeader] the recorded status stays what it was. *)
Lemma fold_recorder_status calls : ∀ r acc,
  (∀ code, W_WriteHeader code ∉ calls) →
  fst (fold_left Container.recorder_call calls (r, acc)) = r.
Proof.
  induction calls as [| c calls IH]; intros r acc Hno; cbn [fold_left]; [done |].
  destruct c as [k v | code | data].
  - cbn [Container.recorder_call fst snd]. apply IH. intros code Hin.
    apply (Hno code). by right.
  - exfalso. apply (Hno code). by left.
  - cbn [Container.recorder_call fst snd]. apply IH. intros code Hin.
    apply (Hno code). by right.
Qed.

(** A header set before the handler runs is in the header map, and in what
    was sent if anything was sent, whatever the handler calls, as long as it
    does not set that header itself. *)
Lemma rw_call_keeps_header (k v : string) (w : ResponseW) (c : WCall) :
  (∀ v', c ≠ W_HeaderSet k v') →
  hdr w !! k = Some [v] ∧ (wroteHeader w = true → sent w !! k = Some [v]) →
  hdr (rw_call w c) !! k = Some [v]
  ∧ (wroteHeader (rw_call w c) = true → sent (rw_call w c) !! k = Some [v]).
Proof.
  intros Hc [Hh Hs]. destruct c as [k' v' | code | data]; cbn.
  - unfold Header_Set. rewrite lookup_insert_ne; [done |].
    intros ->. by apply (Hc v').
  - unfold rw_WriteHeader. destruct (wroteHeader w) eqn:Hw; cbn; [by rewrite Hw | done].
  - unfold rw_WriteHeader. destruct (wroteHeader w) eqn:Hw; cbn; [by rewrite Hw | done].
Qed.

Lemma fold_rw_keeps_header (k v : string) (calls : list WCall) : ∀ w,
  (∀ v', W_HeaderSet k v' ∉ calls) →
  hdr w !! k = Some [v] ∧ (wroteHeader w = true → sent w !! k = Some [v]) →
  let w' := fold_left rw_call calls w in
  hdr w' !! k = Some [v] ∧ (wroteHeader w' = true → sent w' !! k = Some [v]).
Proof.
  induction calls as [| c calls IH]; intros w Hno Hw; cbn [fold_left]; [done |].
  apply IH.
  - intros v' Hin. apply (Hno v'). by right.
  - apply rw_call_keeps_header; [| done].
    intros v' ->. apply (Hno v'). by left.
Qed.

Lemma respond_carries_header (k v : string) (calls : list WCall) :
  (∀ v', W_HeaderSet k v' ∉ calls) →
  sent (respond (W_HeaderSet k v :: calls)) !! k = Some [v].
Proof.
  intros Hno. unfold respond. cbn [fold_left].
  pose proof (fold_rw_keeps_header k v calls (rw_call newResponseW (W_HeaderSet k v)) Hno) as H.
  cbn zeta in H. destruct H as [Hh Hs].
  { cbn. unfold Header_Set. rewrite lookup_insert_eq. split; [done | discriminate]. }
  unfold rw_finish, rw_WriteHeader.
  destruct (wroteHeader _) eqn:Hw; [by apply Hs | done].
Qed.

(** The request id the middleware uses, and the process memory after it
    was chosen. *)
Lemma withMiddleware_calls next lg env r σ :
  let inbound := Header_Get (Header r) "X-Request-Id" in
  let rid_σ := if String.eqb inbound "" then Container.requestID env σ else (inbound, σ) in
  let σ2 :=
    Container.Logger_Debug lg "request started"
      (<["request_id" := VStr (fst rid_σ)]>
         (<["method" := VStr (Method r)]> (<["path" := VStr (Path r)]> ∅))) (snd rid_σ) in
  snd (Container.withMiddleware next lg env r σ)
  = W_HeaderSet "X-Request-Id" (fst rid_σ) :: snd (next env r σ2).
Proof.
  cbn zeta. unfold Container.withMiddleware.
  destruct (if String.eqb _ _ then _ else _) as [rid σ1]. cbn [fst snd].
  destruct (next env r _) as [σ3 calls] eqn:Hn. cbn [fst snd].
  pose proof (via_recorder_forwards {| Container.rec_status := 200 |} calls) as Hf.
  destruct (Container.via_recorder _ calls) as [rec' fwd]. cbn [snd] in *.
  by subst.
Qed.

Lemma Logger_log_reqCounter lg lvl msg fields σ :
  reqCounter (Container.Logger_log lg lvl msg fields σ) = reqCounter σ.
Proof. unfold Container.Logger_log. by destruct (_ <? _). Qed.

(** What [Logger.Info] prints when the logger's level lets it through. *)
Lemma Logger_Info_emits lg msg fields σ :
  Container.level lg <= Container.INFO →
  ∃ entry,
    out (Container.Logger_Info lg msg fields σ) = (out σ ++ [Json entry])%list
    ∧ entry !! "msg" = Some (default (VStr msg) (fields !! "msg"))
    ∧ ∀ k x, fields !! k = Some x → entry !! k = Some x.
Proof.
  intros Hl. unfold Container.Logger_Info, Container.Logger_log.
  destruct (Z.ltb_spec Container.INFO (Container.level lg)); [lia |].
  eexists. split; [reflexivity |]. split.
  - destruct (fields !! "msg") as [x |] eqn:Hf; cbn.
    + by apply lookup_union_Some_l.
    + rewrite lookup_union_r; [| done]. by rewrite lookup_insert_eq.
  - intros k x Hk. by apply lookup_union_Some_l.
Qed.

(** *** Generated identifiers are fresh *)

Lemma append_assoc (s1 s2 s3 : string) : (s1 +:+ s2) +:+ s3 = s1 +:+ (s2 +:+ s3).
Proof.
  induction s1 as [| c s1 IH]; [done |].
  change (String c ((s1 +:+ s2) +:+ s3) = String c (s1 +:+ s2 +:+ s3)).
  by rewrite IH.
Qed.

Lemma digit_value_digit_char (d : N) : (d < 10)%N → digit_value (digit_char d) = Some d.
Proof.
  intros Hd. unfold digit_char, digit_value.
  destruct (N.ltb_spec d 10); [| lia].
  rewrite N_ascii_embedding by lia.
  destruct (N.leb_spec 48 (48 + d)); [| lia].
  destruct (N.ltb_spec (48 + d) 58); [| lia].
  cbn [andb]. f_equal. lia.
Qed.

Lemma format_digits_app fuel base : ∀ n acc,
  format_digits fuel base n acc = format_digits fuel base n "" +:+ acc.
Proof.
  induction fuel as [| fuel IH]; intros n acc; cbn [format_digits]; [done |].
  destruct (n / base =? 0)%N; [done |].
  rewrite IH. rewrite (IH _ (String _ "")).
  by rewrite append_assoc.
Qed.

(** Reading back what [format_digits] wrote gives the number again. *)
Lemma parse_format_digits fuel : ∀ n acc,
  (n < 10 ^ N.of_nat fuel)%N →
  parse_decimal (format_digits fuel 10 n acc) 0 = parse_decimal acc n.
Proof.
  induction fuel as [| fuel IH]; intros n acc Hn.
  - cbn in Hn. assert (n = 0%N) by lia. by subst.
  - cbn [format_digits].
    assert (Hd : (n mod 10 < 10)%N) by (apply N.mod_lt; lia).
    rewrite Nat2N.inj_succ, N.pow_succ_r' in Hn.
    destruct (N.eqb_spec (n / 10) 0) as [Hz | Hnz].
    + cbn [parse_decimal]. rewrite digit_value_digit_char by done.
      f_equal. pose proof (N.div_mod' n 10). lia.
    + rewrite IH.
      * cbn [parse_decimal]. rewrite digit_value_digit_char by done.
        f_equal. pose proof (N.div_mod' n 10). lia.
      * apply N.Div0.div_lt_upper_bound. lia.
Qed.

Lemma parse_FormatUint (n : Z) (rest : string) :
  0 <= n < uint64_mod →
  parse_decimal (FormatUint n 10 +:+ "-" +:+ rest) 0 = Z.to_N n.
Proof.
  intros Hn. unfold FormatUint. rewrite <- format_digits_app.
  change (Z.to_N 10) with 10%N. rewrite parse_format_digits.
  - reflexivity.
  - unfold uint64_mod in Hn.
    apply N.lt_trans with (Z.to_N (2 ^ 64)); [lia | reflexivity].
Qed.

Lemma AddUint64_inj (x y : Z) :
  0 <= x < uint64_mod → 0 <= y < uint64_mod →
  AddUint64 x 1 = AddUint64 y 1 → x = y.
Proof.
  unfold AddUint64, wrap64, uint64_mod. intros Hx Hy H.
  destruct (Z.eq_dec x (2 ^ 64 - 1)) as [-> | Hx'], (Z.eq_dec y (2 ^ 64 - 1)) as [-> | Hy'];
    [done | | |].
  - rewrite (Z.mod_small (y + 1)) in H by lia.
    replace (2 ^ 64 - 1 + 1) with (2 ^ 64) in H by lia.
    rewrite Z.mod_same in H by lia. lia.
  - rewrite (Z.mod_small (x + 1)) in H by lia.
    replace (2 ^ 64 - 1 + 1) with (2 ^ 64) in H by lia.
    rewrite Z.mod_same in H by lia. lia.
  - rewrite !Z.mod_small in H by lia. lia.
Qed.

(** Two identifiers generated at different values of the counter differ,
    whatever the random parts: the decimal prefix tells them apart. *)
Lemma requestID_fresh env1 env2 σ1 σ2 :
  0 <= reqCounter σ1 < uint64_mod → 0 <= reqCounter σ2 < uint64_mod →
  reqCounter σ1 ≠ reqCounter σ2 →
  fst (Container.requestID env1 σ1) ≠ fst (Container.requestID env2 σ2).
Proof.
  intros H1 H2 Hne Heq. cbn [Container.requestID fst] in Heq.
  apply (f_equal (fun s => parse_decimal s 0)) in Heq.
  rewrite !parse_FormatUint in Heq by apply AddUint64_range.
  apply Hne, AddUint64_inj; [done | done |].
  pose proof (AddUint64_range (reqCounter σ1) 1).
  pose proof (AddUint64_range (reqCounter σ2) 1).
  unfold uint64_mod in *. lia.
Qed.

Lemma withMiddleware_logs_default_status next lg env r σ :
  (∀ env' r' σ' code, W_WriteHeader code ∉ snd (next env' r' σ')) →
  Container.level lg <= Container.INFO →
  ∃ entry,
    last (out (fst (Container.withMiddleware next lg env r σ))) = Some (Json entry)
    ∧ entry !! "msg" = Some (VStr "request completed")
    ∧ entry !! "status" = Some (VInt 200).
Proof.
  intros Hno Hl. unfold Container.withMiddleware.
  destruct (if String.eqb _ _ then _ else _) as [rid σ1].
  match goal with |- context [next env r ?s] =>
    pose proof (Hno env r s) as Hno'; destruct (next env r s) as [σ3 calls] end.
  cbn [snd] in Hno'.
  pose proof (fold_recorder_status calls {| Container.rec_status := 200 |} [] Hno') as Hst.
  unfold Container.via_recorder.
  destruct (fold_left Container.recorder_call calls _) as [rec' fwd].
  cbn [fst] in *. subst rec'. cbn [Container.rec_status].
  match goal with |- context [Container.Logger_Info lg ?m ?f σ3] =>
    destruct (Logger_Info_emits lg m f σ3 Hl) as (entry & Ho & Hm & Hf) end.
  exists entry. rewrite Ho, last_snoc. split; [done |]. split.
  - rewrite Hm. by simplify_map_eq.
  - apply Hf. by simplify_map_eq.
Qed.

(** C8.  In the container service the response to every request carries an
    [X-Request-Id] header: the request's own when that is not empty, and
    otherwise the identifier [requestID] generates, for which the counter
    is advanced by one and which differs from every identifier generated
    at another value of the counter.  And whenever the wrapped handler
    never calls [WriteHeader], the status in the "request completed" log
    entry is 200. *)
Theorem middleware_request_id_and_status
    (lg : Container.Logger) (env : HEnv) (r : Request) (σ : World) :
  let inbound := Header_Get (Header r) "X-Request-Id" in
  let result := Container.handler lg env r σ in
  (inbound ≠ "" →
   sent (respond (snd result)) !! "X-Request-Id" = Some [inbound]
   ∧ reqCounter (fst result) = reqCounter σ)
  ∧ (inbound = "" →
     sent (respond (snd result)) !! "X-Request-Id"
       = Some [FormatUint (AddUint64 (reqCounter σ) 1) 10 +:+ "-"
                 +:+ FormatInt (rnd env) 36]
     ∧ reqCounter (fst result) = AddUint64 (reqCounter σ) 1)
  ∧ (∀ env' σ',
       0 <= reqCounter σ < uint64_mod →
       0 <= reqCounter σ' < uint64_mod →
       reqCounter σ' ≠ reqCounter σ →
       fst (Container.requestID env' σ') ≠ fst (Container.requestID env σ))
  ∧ (∀ next : Handler,
       (∀ env' r' σ' code, W_WriteHeader code ∉ snd (next env' r' σ')) →
       Container.level lg <= Container.INFO →
       ∃ entry,
         last (out (fst (Container.withMiddleware next lg env r σ))) = Some (Json entry)
         ∧ entry !! "msg" = Some (VStr "request completed")
         ∧ entry !! "status" = Some (VInt 200)).
Proof.
  cbn zeta.
  assert (Hmux : ∀ env' r' σ' v', W_HeaderSet "X-Request-Id" v' ∉ snd (Container.mux env' r' σ')).
  { intros env' r' σ' v'. unfold Container.mux, ServeMux.
    destruct (String.eqb _ _); cbn; not_in_calls. }
  assert (Hcnt : ∀ s, reqCounter (fst (Container.mux env r s)) = reqCounter s).
  { intros s. unfold Container.mux, ServeMux. by destruct (String.eqb _ _). }
  assert (Hfst : ∀ rid_σ : string * World,
            (if String.eqb (Header_Get (Header r) "X-Request-Id") ""
             then Container.requestID env σ
             else (Header_Get (Header r) "X-Request-Id", σ)) = rid_σ →
            reqCounter (fst (Container.handler lg env r σ)) = reqCounter (snd rid_σ)).
  { intros [rid σ1] Heq. unfold Container.handler, Container.withMiddleware.
    rewrite Heq.
    match goal with |- context [Container.mux env r ?s] =>
      pose proof (Hcnt s) as Hc; destruct (Container.mux env r s) as [σ3 calls] end.
    destruct (Container.via_recorder _ calls) as [rec' fwd]. cbn [fst snd] in *.
    unfold Container.Logger_Info. rewrite Logger_log_reqCounter, Hc.
    unfold Container.Logger_Debug. by rewrite Logger_log_reqCounter. }
  pose proof (withMiddleware_calls Container.mux lg env r σ) as Hcalls.
  cbn zeta in Hcalls. fold (Container.handler lg) in Hcalls.
  split; [| split; [| split]].
  - intros Hne. destruct (String.eqb_spec (Header_Get (Header r) "X-Request-Id") "") as [? | _];
      [done |].
    split.
    + rewrite Hcalls. cbn [fst]. apply respond_carries_header. intros v'. apply Hmux.
    + by rewrite (Hfst _ eq_refl).
  - intros Heq. rewrite Heq in *. cbn [String.eqb] in *. split.
    + rewrite Hcalls. cbn [fst Container.requestID]. apply respond_carries_header.
      intros v'. apply Hmux.
    + by rewrite (Hfst _ eq_refl).
  - intros env' σ' H1 H2 Hne. by apply requestID_fresh.
  - intros next Hno Hl. by apply withMiddleware_logs_default_status.
Qed.

Lemma middleware_request_id_and_status_witness :
  sent (respond (snd (Container.handler (Container.NewLogger Container.INFO)
                        Sample.henv0 Sample.get_root_with_id w0)))
    !! "X-Request-Id" = Some ["abc-123"]
  ∧ sent (respond (snd (Container.handler (Container.NewLogger Container.INFO)
                          Sample.henv0 Sample.get_root w0)))
      !! "X-Request-Id" = Some ["1-1z"]
  ∧ ∃ entry,
      last (out (fst (Container.withMiddleware Container.rootHandler
                        (Container.NewLogger Container.INFO)
                        Sample.henv0 Sample.get_root w0))) = Some (Json entry)
      ∧ entry !! "msg" = Some (VStr "request completed")
      ∧ entry !! "status" = Some (VInt 200).
Proof.
  split; [| split].
  - refine (proj1 (proj1 (middleware_request_id_and_status
             (Container.NewLogger Container.INFO) Sample.henv0
             Sample.get_root_with_id w0) _)).
    vm_compute. discriminate.
  - refine (proj1 (proj1 (proj2 (middleware_request_id_and_status
             (Container.NewLogger Container.INFO) Sample.henv0
             Sample.get_root w0)) _)).
    vm_compute. reflexivity.
  - refine (proj2 (proj2 (proj2 (middleware_request_id_and_status
             (Container.NewLogger Container.INFO) Sample.henv0
             Sample.get_root w0))) Container.rootHandler _ _).
    + intros env' r' σ' code. cbn. not_in_calls.
    + cbn. lia.
Defined.

(** ** Invariants of the process *)

Lemma tick_conns_positive h cs : ∀ σ,
  Forall (fun c => (0 < remaining c)%nat) (fst (fst (tick_conns h cs σ))).
Proof.
  induction cs as [| c cs IH]; intros σ; cbn [tick_conns]; [constructor |].
  destruct (remaining c) as [| [| k]].
  - destruct (h _ _ _) as [σ1 calls]. specialize (IH σ1).
    by destruct (tick_conns h cs σ1) as [[rest σ'] rs].
  - destruct (h _ _ _) as [σ1 calls]. specialize (IH σ1).
    by destruct (tick_conns h cs σ1) as [[rest σ'] rs].
  - specialize (IH σ). destruct (tick_conns h cs σ) as [[rest σ'] rs].
    cbn in *. constructor; [cbn; lia | done].
Qed.

Lemma tick_proc_fields v e pc p :
  mainpc (tick_proc v e pc p) = pc
  ∧ srvpc (tick_proc v e pc p) = srvpc p
  ∧ exit_status (tick_proc v e pc p) = exit_status p
  ∧ listening (server (tick_proc v e pc p)) = listening (server p)
  ∧ inShutdown (server (tick_proc v e pc p)) = inShutdown (server p)
  ∧ refused (tick_proc v e pc p) = refused p
  ∧ cut (tick_proc v e pc p) = cut p
  ∧ Forall (fun c => (0 < remaining c)%nat) (conns (server (tick_proc v e pc p))).
Proof.
  unfold tick_proc.
  pose proof (tick_conns_positive (handler v e) (conns (server p)) (advance (world p))) as P.
  destruct (tick_conns _ _ _) as [[cs σ'] rs]. cbn in *. repeat split; done.
Qed.

Lemma consistent_init v e : consistent (proc_init v e).
Proof. unfold consistent. cbn. repeat split; (done || discriminate || constructor). Qed.

Lemma consistent_step v e p ev p' :
  consistent p → step v e p ev = Some p' → consistent p'.
Proof.
  intros (I1 & I2 & I3 & I4 & I5) Hs. unfold consistent, stop_invoked in *.
  step_inv Hs;
    try match goal with
      | |- context [tick_proc ?v ?e ?pc ?p] =>
          destruct (tick_proc_fields v e pc p) as (-> & -> & _ & -> & -> & _ & _ & ?)
      end;
    cbn in *;
    repeat match goal with
      | H : mainpc _ = _ |- _ => rewrite H in *
      | H : srvpc _ = _ |- _ => rewrite H in *
      | H : inShutdown _ = _ |- _ => rewrite H in *
      | H : listening _ = _ |- _ => rewrite H in *
      end;
    repeat split; try done; try (intros; discriminate); try tauto;
    try (by destruct I3 as [A B]; (discriminate (A eq_refl) || discriminate (B eq_refl)));
    try (constructor; [cbn; lia | done]);
    try (destruct I3; intuition congruence).
  intros _. destruct (error_eqb _ _); [| discriminate].
  by destruct (mainpc p).
Qed.

(** Invariants hold along every run, hence of every reachable process. *)
Lemma run_invariant (P : Proc → Prop) v e :
  (∀ p ev p', P p → step v e p ev = Some p' → P p') →
  ∀ evs p p', P p → run v e evs p = Some p' → P p'.
Proof.
  intros Hstep evs. induction evs as [| ev evs IH]; intros p p' HP Hr; cbn in Hr.
  - by inversion Hr; subst.
  - destruct (step v e p ev) as [p1 |] eqn:Hs; [| discriminate].
    apply (IH p1 p'); [by eapply Hstep | done].
Qed.

Lemma reachable_consistent v e p : reachable v e p → consistent p.
Proof.
  intros [evs Hr].
  apply (run_invariant consistent v e (consistent_step v e) evs _ _ (consistent_init v e) Hr).
Qed.

Lemma reachable_step v e p ev p' :
  reachable v e p → step v e p ev = Some p' → reachable v e p'.
Proof.
  intros [evs Hr] Hs. exists (evs ++ [ev])%list.
  revert Hr. generalize (proc_init v e). induction evs as [| x evs IH]; intros q Hr; cbn in *.
  - inversion Hr; subst. by rewrite Hs.
  - destruct (step v e q x); [by apply IH | discriminate].
Qed.

(** A process that has exited takes no step. *)
Lemma step_alive v e p ev p' : step v e p ev = Some p' → exit_status p = None.
Proof.
  unfold step, alive. by destruct (exit_status p).
Qed.


(** ** The handle's state machine *)

Lemma handle_state_tick v e pc p :
  mainpc p = pc → handle_state (tick_proc v e pc p) = handle_state p.
Proof.
  intros Hpc. unfold handle_state.
  destruct (tick_proc_fields v e pc p) as (-> & -> & -> & _). by rewrite Hpc.
Qed.

Lemma fatal_contract srv err :
  listen_contract srv err = true → fatal err = negb (inShutdown srv).
Proof.
  unfold listen_contract, fatal. destruct err as [x |]; [| discriminate].
  by destruct (error_eqb x ErrServerClosed), (inShutdown srv).
Qed.

(** A process that is alive is not Failed. *)
Lemma alive_not_failed v e p :
  reachable v e p → exit_status p = None → handle_state p ≠ Failed.
Proof.
  intros Hr Ha. destruct (reachable_consistent _ _ _ Hr) as (_ & _ & _ & I4 & _).
  unfold handle_state, stop_invoked in *. rewrite Ha.
  destruct (mainpc p) eqn:Hm; try discriminate.
  destruct (srvpc p) as [| [|] |]; try discriminate. by specialize (I4 eq_refl).
Qed.

(** Every step leaves the handle where it is or takes one of the moves of
    [edge]. *)
Lemma handle_state_step v e p ev p' :
  reachable v e p →
  step v e p ev = Some p' →
  handle_state p' = handle_state p ∨ edge (handle_state p) (handle_state p') = true.
Proof.
  intros Hr Hs.
  pose proof (reachable_consistent _ _ _ Hr) as (I1 & I2 & I3 & I4 & I5).
  pose proof (step_alive _ _ _ _ _ Hs) as Ha.
  unfold step in Hs. unfold alive in Hs. rewrite Ha in Hs. cbn [negb] in Hs.
  destruct ev.
  - (* the goroutine is started *)
    destruct (mainpc p) eqn:Hm; try discriminate. inversion Hs; subst; clear Hs.
    right. unfold handle_state. by rewrite Ha, Hm.
  - (* the listener is bound *)
    destruct (srvpc p) as [| [|] |] eqn:Hg; try discriminate.
    destruct (inShutdown (server p)) eqn:Hsh; try discriminate.
    inversion Hs; subst; clear Hs.
    unfold handle_state, stop_invoked in *. rewrite Ha, Hg. cbn.
    destruct (mainpc p) eqn:Hm; try discriminate; auto.
  - (* [ListenAndServe] returns *)
    destruct (srvpc p) as [| b |] eqn:Hg; try discriminate.
    destruct (listen_contract (server p) err) eqn:Hc; try discriminate.
    pose proof (fatal_contract _ _ Hc) as Hf.
    destruct err as [x |]; try discriminate.
    rewrite Hf in Hs. rewrite I1 in Hs. unfold stop_invoked in Hs.
    destruct (mainpc p) eqn:Hm; cbn in Hs; inversion Hs; subst; clear Hs;
      unfold handle_state; cbn; rewrite ?Ha, ?Hm, ?Hg; cbn; auto.
    + destruct I3 as [A _]. discriminate (A eq_refl).
    + destruct b; auto.
  - (* a signal arrives *)
    destruct (mainpc p) eqn:Hm; try discriminate. inversion Hs; subst; clear Hs.
    unfold handle_state, stop_invoked in *. rewrite Ha, Hm. cbn.
    rewrite Hm in I4.
    destruct (srvpc p) as [| [|] |] eqn:Hg; cbn; auto;
      try (by specialize (I4 eq_refl)).
    destruct I3 as [_ B]. discriminate (B eq_refl).
  - (* a client connects *)
    left. destruct d; try discriminate.
    destruct (listening (server p)); inversion Hs; subst; clear Hs;
      unfold handle_state; cbn; by rewrite Ha.
  - (* a millisecond passes *)
    left. destruct (mainpc p) eqn:Hm.
    + inversion Hs; subst. by apply handle_state_tick.
    + inversion Hs; subst. by apply handle_state_tick.
    + destruct (Shutdown_poll ms (server p)); try discriminate.
      destruct ms as [| ms']; try discriminate. inversion Hs; subst.
      unfold handle_state.
      destruct (tick_proc_fields v e (MShutdown ms') p) as (Hm' & _ & Hx' & _).
      by rewrite Hm', Hx', Ha, Hm.
    + inversion Hs; subst. by apply handle_state_tick.
  - (* [Shutdown] returns *)
    destruct (mainpc p) eqn:Hm; try discriminate.
    destruct (Shutdown_poll ms (server p)) as [err |]; try discriminate.
    inversion Hs; subst; clear Hs.
    right. unfold handle_state. by rewrite Ha, Hm.
  - (* [main] returns *)
    destruct (mainpc p) eqn:Hm; try discriminate. inversion Hs; subst; clear Hs.
    left. unfold handle_state. by rewrite Ha, Hm.
  - (* the heartbeat *)
    left. destruct v; try discriminate. inversion Hs; subst; clear Hs.
    reflexivity.
  - (* the background worker *)
    left. destruct v; try discriminate. inversion Hs; subst; clear Hs.
    reflexivity.
Qed.

(** C7.  From every reachable state of the process, a step either leaves
    the handle's state as it is, or moves it forward along
    Idle, Starting, Running, Stopping, Stopped, or takes it to Failed, and
    that only from Starting or Running; and once the handle is Stopped or
    Failed no step changes its state.  The moves that occur are those of
    [edge]: the chain step by step, Starting to Stopping when the signal
    comes before the listener is bound, and the two failures. *)
Theorem handle_state_moves_forward (v : Variant) (e : OsEnv) (p p' : Proc) (ev : Event) :
  reachable v e p →
  step v e p ev = Some p' →
  forward (handle_state p) (handle_state p') = true
  ∧ (handle_state p' = Failed →
     handle_state p = Starting ∨ handle_state p = Running)
  ∧ (terminal (handle_state p) = true → handle_state p' = handle_state p)
  ∧ (handle_state p' = handle_state p
     ∨ edge (handle_state p) (handle_state p') = true).
Proof.
  intros Hr Hs.
  pose proof (alive_not_failed v e p Hr (step_alive _ _ _ _ _ Hs)) as Hnf.
  pose proof (handle_state_step v e p ev p' Hr Hs) as Hedge.
  split; [| split; [| split; [| done]]].
  - destruct Hedge as [-> | He]; [by destruct (handle_state p) |].
    by destruct (handle_state p), (handle_state p').
  - destruct Hedge as [-> | He]; [done |]. intros HF. rewrite HF in He.
    destruct (handle_state p); try discriminate; auto.
  - destruct Hedge as [-> | He]; [done |].
    by destruct (handle_state p), (handle_state p').
Qed.

Lemma sample_running_reachable :
  run VBasic Sample.env0 Sample.running (proc_init VBasic Sample.env0)
  = Some (Sample.after VBasic Sample.running).
Proof. reflexivity. Qed.

Lemma handle_state_moves_forward_witness :
  let p := Sample.after VBasic Sample.running in
  let p' := Sample.after VBasic (Sample.running ++ [EvSignal SIGTERM]) in
  handle_state p = Running
  ∧ handle_state p' = Stopping
  ∧ forward (handle_state p) (handle_state p') = true.
Proof.
  cbn zeta. split; [reflexivity |]. split; [reflexivity |].
  refine (proj1 (handle_state_moves_forward VBasic Sample.env0
                   (Sample.after VBasic Sample.running)
                   (Sample.after VBasic (Sample.running ++ [EvSignal SIGTERM]))
                   (EvSignal SIGTERM) _ _)).
  - exists Sample.running. reflexivity.
  - reflexivity.
Defined.

(** The whole chain is walked by a run with a clean stop, and Failed is
    entered from Starting and from Running. *)
Example handle_state_chain :
  map (fun evs => handle_state (Sample.after VBasic evs))
    [ []; [EvGo]; [EvGo; EvBound]; [EvGo; EvBound; EvSignal SIGINT];
      [EvGo; EvBound; EvSignal SIGINT; EvShutdownReturn];
      [EvGo; EvBound; EvSignal SIGINT; EvShutdownReturn; EvMainReturn];
      Sample.bind_failure; Sample.serve_failure ]
  = [Idle; Starting; Running; Stopping; Stopped; Stopped; Failed; Failed].
Proof. reflexivity. Qed.

(** ** New connections after the stop has begun *)

Lemma stop_invoked_step v e p ev p' :
  stop_invoked p = true → step v e p ev = Some p' → stop_invoked p' = true.
Proof.
  intros Hst Hs. unfold stop_invoked in *.
  step_inv Hs; cbn in *;
    try match goal with
      | |- context [tick_proc ?v ?e ?pc ?p] =>
          destruct (tick_proc_fields v e pc p) as (-> & _)
      end;
    try done;
    repeat match goal with H : mainpc _ = _ |- _ => rewrite H in * end; done.
Qed.

(** C4.  Once [main] has entered the stop sequence, in every reachable
    state from then on, the listener is closed and stays closed: a
    connection attempt is refused at once and adds nothing to the
    connections of the server, also while requests in flight are still
    being drained, which each further millisecond continues to do. *)
Theorem no_accept_after_stop (v : Variant) (e : OsEnv) (p : Proc) :
  reachable v e p →
  stop_invoked p = true →
  listening (server p) = false
  ∧ (∀ d r env p',
       step v e p (EvDial d r env) = Some p' →
       conns (server p') = conns (server p)
       ∧ refused p' = S (refused p)
       ∧ served p' = served p)
  ∧ (∀ ev p', step v e p ev = Some p' →
       stop_invoked p' = true ∧ listening (server p') = false)
  ∧ (∀ ms, mainpc p = MShutdown (S ms) → conns (server p) ≠ [] →
       exit_status p = None →
       ∃ p', step v e p EvTick = Some p' ∧ mainpc p' = MShutdown ms).
Proof.
  intros Hr Hst.
  assert (Hclosed : ∀ q, reachable v e q → stop_invoked q = true →
            listening (server q) = false).
  { intros q Hq Hsq. destruct (reachable_consistent _ _ _ Hq) as (I1 & I2 & _).
    destruct (listening (server q)); [| done].
    destruct (I2 eq_refl) as [Hn _]. congruence. }
  pose proof (Hclosed p Hr Hst) as Hl.
  split; [done |]. split; [| split].
  - intros d r env p' Hs. unfold step in Hs.
    destruct (negb (alive p)); [discriminate |].
    destruct d; [discriminate |]. rewrite Hl in Hs.
    by inversion Hs; subst.
  - intros ev p' Hs. pose proof (stop_invoked_step _ _ _ _ _ Hst Hs) as Hst'.
    split; [done |]. apply Hclosed; [| done]. by eapply reachable_step.
  - intros ms Hm Hc Ha. unfold step, alive. rewrite Ha, Hm. cbn [negb].
    unfold Shutdown_poll. destruct (conns (server p)) as [| c cs] eqn:Hcs; [done |].
    eexists. split; [reflexivity |].
    by destruct (tick_proc_fields v e (MShutdown ms) p) as (-> & _).
Qed.

Lemma no_accept_after_stop_witness :
  let p := Sample.after VBasic (Sample.slow_request ++ [EvSignal SIGTERM]) in
  stop_invoked p = true
  ∧ length (conns (server p)) = 1%nat
  ∧ listening (server p) = false.
Proof.
  cbn zeta. split; [reflexivity |]. split; [reflexivity |].
  refine (proj1 (no_accept_after_stop VBasic Sample.env0
                   (Sample.after VBasic (Sample.slow_request ++ [EvSignal SIGTERM])) _ _)).
  - exists (Sample.slow_request ++ [EvSignal SIGTERM])%list. reflexivity.
  - reflexivity.
Defined.

(** A connection attempt during the drain: refused, while the request in
    flight goes on. *)
Example dial_during_drain :
  let p := Sample.after VBasic
             (Sample.slow_request
                ++ [EvSignal SIGTERM; EvTick; EvDial 5 Sample.get_health Sample.henv0; EvTick]) in
  handle_state p = Stopping
  ∧ refused p = 1%nat
  ∧ map remaining (conns (server p)) = [(8 * Second - 2)%nat].
Proof. vm_compute. repeat split. Qed.

(** ** The termination signal *)

(** C6, as the code has it.  [main] receives from the channel and drops
    the value: the process continues in the same way whichever of the two
    subscribed signals arrived, nothing but a signal ends the wait, and so
    there is no third, programmatic, cause. *)
Theorem signal_value_is_dropped (v : Variant) (e : OsEnv) (p : Proc) :
  (∀ s1 s2, step v e p (EvSignal s1) = step v e p (EvSignal s2))
  ∧ (∀ ev p',
       mainpc p = MWaitSignal →
       step v e p ev = Some p' →
       mainpc p' ≠ MWaitSignal →
       ∃ s, ev = EvSignal s).
Proof.
  split; [reflexivity |].
  intros ev p' Hm Hs Hne. destruct ev; try by eexists.
  all: exfalso; apply Hne; unfold step in Hs;
    destruct (negb (alive p)); try discriminate; rewrite ?Hm in Hs.
  - discriminate.
  - step_inv Hs; cbn; done.
  - step_inv Hs; cbn; done.
  - step_inv Hs; cbn; done.
  - inversion Hs; subst. by destruct (tick_proc_fields v e MWaitSignal p) as (-> & _).
  - discriminate.
  - discriminate.
  - step_inv Hs; cbn; done.
  - step_inv Hs; cbn; done.
Qed.

Lemma signal_value_is_dropped_witness :
  let p := Sample.after VBasic Sample.running in
  ∃ s, EvSignal SIGINT = EvSignal s.
Proof.
  cbn zeta.
  refine (proj2 (signal_value_is_dropped VBasic Sample.env0
                   (Sample.after VBasic Sample.running))
            (EvSignal SIGINT)
            (Sample.after VBasic (Sample.running ++ [EvSignal SIGINT])) _ _ _).
  - reflexivity.
  - reflexivity.
  - discriminate.
Defined.

(** C6 as stated fails: no tag telling the trigger can be read off the
    process after the wait, since an interrupt and a terminate request
    leave it in the same state. *)
Lemma no_reason_tag :
  let p := Sample.after VBasic Sample.running in
  step VBasic Sample.env0 p (EvSignal SIGINT) = step VBasic Sample.env0 p (EvSignal SIGTERM)
  ∧ is_Some (step VBasic Sample.env0 p (EvSignal SIGINT))
  ∧ ¬ ∃ reason : Proc → Signal,
        ∀ s p', step VBasic Sample.env0 p (EvSignal s) = Some p' → reason p' = s.
Proof.
  cbn zeta. split; [reflexivity |]. split; [by eexists |].
  intros [reason H].
  pose proof (H SIGINT _ eq_refl) as H1.
  pose proof (H SIGTERM _ eq_refl) as H2.
  congruence.
Qed.

(** ** The health endpoint *)





Lemma sample_health_during_stop_reachable :
  run VBasic Sample.env0 Sample.health_during_stop (proc_init VBasic Sample.env0)
  = Some (Sample.after VBasic Sample.health_during_stop).
Proof. reflexivity. Qed.



(** ** The exit status *)

(** A step ends the process with status 1 exactly when it is a failure of
    [ListenAndServe], and with status 0 only when [main] returns. *)
Lemma step_exit v e p ev p' :
  step v e p ev = Some p' →
  (is_listen_failure ev = true ∧ exit_status p' = Some 1 ∧ mainpc p' = mainpc p)
  ∨ (is_listen_failure ev = false
     ∧ (exit_status p' = None
        ∨ (exit_status p' = Some 0 ∧ ∃ err, mainpc p = MDone err ∧ mainpc p' = MDone err))).
Proof.
  intros Hs. pose proof (step_alive _ _ _ _ _ Hs) as Ha.
  unfold step, alive in Hs. rewrite Ha in Hs. cbn [negb] in Hs.
  destruct ev; cbn [is_listen_failure].
  - right. split; [done |]. left. step_inv Hs. reflexivity.
  - right. split; [done |]. left. step_inv Hs. reflexivity.
  - destruct (srvpc p); try discriminate.
    destruct (listen_contract (server p) err); try discriminate.
    destruct err as [x |]; try discriminate.
    destruct (fatal (Some x)) eqn:Hf; inversion Hs; subst.
    + left. by repeat split.
    + right. split; [done |]. by left.
  - right. split; [done |]. left. step_inv Hs. reflexivity.
  - right. split; [done |]. left. step_inv Hs; reflexivity.
  - right. split; [done |]. left.
    step_inv Hs;
      match goal with |- context [tick_proc ?v ?e ?pc ?p] =>
        by destruct (tick_proc_fields v e pc p) as (_ & _ & -> & _) end.
  - right. split; [done |]. left. step_inv Hs. reflexivity.
  - right. split; [done |]. right.
    destruct (mainpc p) eqn:Hm; try discriminate. inversion Hs; subst. cbn.
    split; [done |]. by eexists.
  - right. split; [done |]. left. step_inv Hs. done.
  - right. split; [done |]. left. step_inv Hs. done.
Qed.

Lemma run_exited v e evs p p' :
  exit_status p ≠ None → run v e evs p = Some p' → evs = [] ∧ p' = p.
Proof.
  intros Hx Hr. destruct evs as [| ev evs]; cbn in Hr.
  - by inversion Hr.
  - unfold step, alive in Hr. by destruct (exit_status p).
Qed.

Lemma run_exit v e evs : ∀ p p',
  exit_status p = None →
  run v e evs p = Some p' →
  match exit_status p' with
  | Some c =>
      (c = 1 ∧ listen_failed evs = true)
      ∨ (c = 0 ∧ listen_failed evs = false ∧ ∃ err, mainpc p' = MDone err)
  | None => listen_failed evs = false
  end.
Proof.
  induction evs as [| ev evs IH]; intros p p' Ha Hr; cbn in Hr.
  - inversion Hr; subst. by rewrite Ha.
  - destruct (step v e p ev) as [p1 |] eqn:Hs; [| discriminate].
    unfold listen_failed. cbn [existsb].
    destruct (step_exit _ _ _ _ _ Hs) as [(Hf & Hx & _) | (Hf & [Hx | (Hx & err & _ & Hm)])];
      rewrite Hf; cbn [orb].
    + destruct (run_exited v e evs p1 p') as [-> ->]; [by rewrite Hx | done |].
      rewrite Hx. by left.
    + apply (IH p1 p' Hx Hr).
    + destruct (run_exited v e evs p1 p') as [-> ->]; [by rewrite Hx | done |].
      rewrite Hx. right. split; [done |]. split; [done |]. by eexists.
Qed.

(** What [Shutdown] returned is nil or the error of the expired context. *)
Lemma done_outcome v e p :
  reachable v e p → ∀ err, mainpc p = MDone err →
  err = None ∨ err = Some DeadlineExceeded.
Proof.
  intros [evs Hr].
  refine (run_invariant
            (fun q => ∀ err, mainpc q = MDone err → err = None ∨ err = Some DeadlineExceeded)
            v e _ evs _ _ _ Hr).
  - intros q ev q' IH Hs err Hm.
    step_inv Hs; cbn in Hm;
      try match type of Hm with
        | mainpc (tick_proc ?v ?e ?pc ?p) = _ =>
            destruct (tick_proc_fields v e pc p) as (Hpc & _); rewrite Hpc in Hm
        end;
      try discriminate Hm; try (apply IH; congruence).
    unfold Shutdown_poll in *. inversion Hm; subst.
    destruct (conns (server q)); [left | destruct ms; [right | discriminate]]; congruence.
  - intros err Hm. discriminate Hm.
Qed.

(** A process that exited with a status other than 0 never entered the
    stop sequence. *)
Lemma failed_before_stop v e p :
  reachable v e p → ∀ c, exit_status p = Some c → c ≠ 0 → stop_invoked p = false.
Proof.
  intros [evs Hr].
  refine (proj2 (run_invariant
            (fun q => consistent q
                      ∧ ∀ c, exit_status q = Some c → c ≠ 0 → stop_invoked q = false)
            v e _ evs _ _ _ Hr)).
  - intros q ev q' [Hc IH] Hs. split; [by eapply consistent_step |].
    intros c Hx Hne.
    destruct (step_exit _ _ _ _ _ Hs) as [(Hf & _ & Hm) | (_ & [Hx' | (Hx' & _)])];
      [| congruence | congruence].
    destruct Hc as (I1 & _). unfold stop_invoked in *. rewrite Hm, <- I1.
    destruct ev as [| | err | | | | | | |]; try discriminate Hf. cbn in Hf.
    unfold step in Hs. destruct (negb (alive q)); [discriminate |].
    destruct (srvpc q); try discriminate.
    destruct (listen_contract (server q) err) eqn:Hlc; [| discriminate].
    rewrite (fatal_contract _ _ Hlc) in Hf. by destruct (inShutdown (server q)).
  - split; [apply consistent_init | intros c Hx; discriminate Hx].
Qed.

(** C2, as the code has it.  The process exits with a status other than
    zero exactly when [ListenAndServe] has returned an error other than
    [ErrServerClosed], which it does when the listener cannot be bound and
    also when serving fails after it was bound; and it exits with status
    zero exactly when [main] has come out of the stop sequence, be the
    stop clean or forced. *)
Theorem exit_status_nonzero_iff_listen_failed
    (v : Variant) (e : OsEnv) (evs : list Event) (p : Proc) (c : Z) :
  run v e evs (proc_init v e) = Some p →
  exit_status p = Some c →
  (c ≠ 0 ↔ listen_failed evs = true)
  ∧ (bind_failed evs = true → c = 1)
  ∧ (c = 0 ↔ ∃ err, mainpc p = MDone err)
  ∧ (∀ err, mainpc p = MDone err → err = None ∨ err = Some DeadlineExceeded).
Proof.
  intros Hr Hx.
  pose proof (run_exit v e evs (proc_init v e) p eq_refl Hr) as H. rewrite Hx in H.
  assert (Hreach : reachable v e p) by (by exists evs).
  split; [| split; [| split]].
  - destruct H as [[-> ->] | (-> & -> & _)]; split; intros; congruence.
  - unfold bind_failed. intros Hb. apply andb_prop in Hb as [Hl _].
    unfold listen_failed in H.
    destruct H as [[-> _] | (_ & Hn & _)]; [done | congruence].
  - split.
    + intros ->. destruct H as [[? _] | (_ & _ & Hm)]; [discriminate | done].
    + intros [err Hm]. destruct (Z.eq_dec c 0) as [-> | Hne]; [done |].
      pose proof (failed_before_stop v e p Hreach c Hx Hne) as Hst.
      unfold stop_invoked in Hst. rewrite Hm in Hst. discriminate.
  - by apply (done_outcome v e p).
Qed.

Lemma exit_status_nonzero_iff_listen_failed_witness :
  (1 ≠ 0 ↔ listen_failed Sample.bind_failure = true)
  ∧ (bind_failed Sample.bind_failure = true → 1 = 1)
  ∧ (1 = 0 ↔ ∃ err, mainpc (Sample.after VContainer Sample.bind_failure) = MDone err)
  ∧ (∀ err, mainpc (Sample.after VContainer Sample.bind_failure) = MDone err →
       err = None ∨ err = Some DeadlineExceeded).
Proof.
  refine (exit_status_nonzero_iff_listen_failed VContainer Sample.env0
            Sample.bind_failure (Sample.after VContainer Sample.bind_failure) 1 _ _).
  - reflexivity.
  - reflexivity.
Defined.

(** After a clean stop and after a forced stop the process exits with 0. *)
Example exit_zero_after_stop :
  exit_status (Sample.after VBasic
                 (Sample.running ++ [EvSignal SIGTERM; EvShutdownReturn; EvMainReturn]))
  = Some 0
  ∧ (∃ p, receive_and_stop VBasic Sample.env0 SIGTERM
            (Sample.after VBasic Sample.slow_request) = Some p
          ∧ mainpc p = MDone (Some DeadlineExceeded)
          ∧ option_map exit_status (step VBasic Sample.env0 p EvMainReturn)
            = Some (Some 0)).
Proof. vm_compute. split; [reflexivity |]. eexists. repeat split. Qed.

(** C2 as stated fails: the listener is bound, serving fails later, and
    the process exits with status 1 although no bind failed. *)
Lemma nonzero_exit_without_bind_failure :
  let p := Sample.after VBasic Sample.serve_failure in
  run VBasic Sample.env0 Sample.serve_failure (proc_init VBasic Sample.env0) = Some p
  ∧ exit_status p = Some 1
  ∧ bind_failed Sample.serve_failure = false
  ∧ ¬ (1 ≠ 0 ↔ bind_failed Sample.serve_failure = true).
Proof.
  cbn zeta. split; [reflexivity |]. split; [reflexivity |]. split; [reflexivity |].
  intros [H _]. specialize (H ltac:(discriminate)). discriminate H.
Qed.

(** ** The stop sequence *)













Lemma sample_slow_request_reachable :
  run VBasic Sample.env0 Sample.slow_request (proc_init VBasic Sample.env0)
  = Some (Sample.after VBasic Sample.slow_request).
Proof. reflexivity. Qed.



(** The two scenarios of the specification, on [Shutdown] with their
    timeouts: three requests of 200 ms against two seconds are all answered
    and [Shutdown] returns nil after 200 ms; a request of five seconds
    against one second is still open when [Shutdown] returns the deadline
    error after one second. *)
Example Shutdown_three_short_requests :
  let c := {| remaining := 200; request := Sample.get_root; henv := Sample.henv0 |} in
  let srv := {| listening := true; inShutdown := false; conns := [c; c; c] |} in
  let r := Shutdown Basic.healthHandler (2 * Second) srv w0 in
  fst (fst (fst r)) = None
  ∧ conns (snd (fst (fst r))) = []
  ∧ now (snd (fst r)) = 200%nat
  ∧ length (snd r) = 3%nat.
Proof. vm_compute. repeat split. Qed.

Example Shutdown_one_long_request :
  let c := {| remaining := 5 * Second; request := Sample.get_root; henv := Sample.henv0 |} in
  let srv := {| listening := true; inShutdown := false; conns := [c] |} in
  let r := Shutdown Basic.healthHandler (1 * Second) srv w0 in
  fst (fst (fst r)) = Some DeadlineExceeded
  ∧ map remaining (conns (snd (fst (fst r)))) = [(4 * Second)%nat]
  ∧ now (snd (fst r)) = Second
  ∧ snd r = [].
Proof. vm_compute. repeat split. Qed.

(** ** Stopping twice *)




(** A second run of the stop sequence after a clean one. *)
Example stop_twice_clean :
  let p := Sample.after VBasic (Sample.running ++ [EvDial 3 Sample.get_health Sample.henv0]) in
  let r1 := stop VBasic Sample.env0 (server p) (world p) in
  let r2 := stop VBasic Sample.env0 (snd (fst (fst r1))) (snd (fst r1)) in
  fst (fst (fst r1)) = None
  ∧ fst (fst (fst r2)) = None
  ∧ now (snd (fst r1)) = 3%nat
  ∧ now (snd (fst r2)) = 3%nat.
Proof. vm_compute. repeat split. Qed.


(** * Further properties of the code *)

(** ** The logger of the container service *)

Lemma emit_changes l σ : emit l σ ≠ σ.
Proof.
  intros H. apply (f_equal (fun s => length (out s))) in H.
  cbn in H. rewrite length_app in H. cbn in H. lia.
Qed.

Lemma Logger_log_cases lg lvl msg fields σ :
  (lvl < Container.level lg ∧ Container.Logger_log lg lvl msg fields σ = σ)
  ∨ (Container.level lg <= lvl
     ∧ Container.Logger_log lg lvl msg fields σ
       = emit (Json (fields ∪ <["msg" := VStr msg]>
                               (<["level" := VStr (Container.LogLevel_String lvl)]>
                                  (<["ts" := VTime (now σ)]> ∅)))) σ).
Proof.
  unfold Container.Logger_log.
  destruct (Z.ltb_spec lvl (Container.level lg)); [left | right]; done.
Qed.

(** X1.  Which calls of a logger built from [LOG_LEVEL] print: [Error]
    always prints one line; [Warn] is silent exactly for "error"; [Info] is
    silent exactly for "warn" and "error"; [Debug] prints only for "debug";
    and a call that is silent leaves the process memory as it is. *)
Theorem log_level_filter (v msg : string) (fields : gmap string Value) (σ : World) :
  let lg := Container.NewLogger (Container.parseLogLevel v) in
  (∃ entry, Container.Logger_Error lg msg fields σ = emit (Json entry) σ)
  ∧ (Container.Logger_Warn lg msg fields σ = σ ↔ v = "error")
  ∧ (Container.Logger_Info lg msg fields σ = σ ↔ v = "warn" ∨ v = "error")
  ∧ (Container.Logger_Debug lg msg fields σ = σ ↔ v ≠ "debug")
  ∧ (∀ lvl, Container.Logger_log lg lvl msg fields σ = σ
            ∨ ∃ entry, Container.Logger_log lg lvl msg fields σ = emit (Json entry) σ).
Proof.
  cbn zeta.
  assert (Hany : ∀ lvl,
            Container.Logger_log (Container.NewLogger (Container.parseLogLevel v))
              lvl msg fields σ = σ
            ∨ ∃ entry,
                Container.Logger_log (Container.NewLogger (Container.parseLogLevel v))
                  lvl msg fields σ = emit (Json entry) σ).
  { intros lvl. destruct (Logger_log_cases (Container.NewLogger (Container.parseLogLevel v))
                            lvl msg fields σ) as [[_ H] | [_ H]]; [by left | right; by eexists]. }
  refine (conj _ (conj _ (conj _ (conj _ Hany)))); clear Hany;
  unfold Container.Logger_Error, Container.Logger_Warn, Container.Logger_Info,
    Container.Logger_Debug;
  destruct (parseLogLevel_cases v) as [[Hl ->] | [[Hl ->] | [[Hl ->] | [Hl (Hd & Hw & He)]]]];
    unfold Container.Logger_log; rewrite Hl; cbn -[emit];
    try (by eexists);
    repeat split; try done; try discriminate;
    try (intros H; by apply emit_changes in H);
    try (intros [H | H]; discriminate H);
    try (intros [H | H]; congruence);
    try (intros _; by right);
    try (intros _; by left);
    try (intros H; exfalso; by apply H).
Qed.

(** X2.  The entry a logger prints holds the keys "ts", "level" and "msg"
    and those of the fields it was given, and no others; a field wins over
    the standard key of the same name, so a field called "msg" replaces the
    message; without fields there are exactly the three standard keys. *)
Theorem log_entry_keys (lg : Container.Logger) (lvl : Container.LogLevel)
    (msg : string) (fields : gmap string Value) (σ : World) :
  Container.level lg <= lvl →
  ∃ entry,
    Container.Logger_log lg lvl msg fields σ = emit (Json entry) σ
    ∧ dom entry = dom fields ∪ standard_keys
    ∧ (∀ k x, fields !! k = Some x → entry !! k = Some x)
    ∧ (fields !! "msg" = None → entry !! "msg" = Some (VStr msg))
    ∧ (fields !! "level" = None →
       entry !! "level" = Some (VStr (Container.LogLevel_String lvl)))
    ∧ (fields !! "ts" = None → entry !! "ts" = Some (VTime (now σ)))
    ∧ (fields = ∅ → dom entry = standard_keys).
Proof.
  intros Hl.
  destruct (Logger_log_cases lg lvl msg fields σ) as [[Hlt _] | [_ Heq]]; [lia |].
  eexists. split; [exact Heq |].
  assert (Hdom : dom (fields ∪ <["msg" := VStr msg]>
                               (<["level" := VStr (Container.LogLevel_String lvl)]>
                                  (<["ts" := VTime (now σ)]> (∅ : gmap string Value))))
                 = dom fields ∪ standard_keys).
  { rewrite dom_union_L, !dom_insert_L, dom_empty_L. unfold standard_keys. set_solver. }
  split; [exact Hdom |]. split; [| split; [| split; [| split]]].
  - intros k x Hk. by apply lookup_union_Some_l.
  - intros Hn. rewrite lookup_union_r by done. by simplify_map_eq.
  - intros Hn. rewrite lookup_union_r by done. by simplify_map_eq.
  - intros Hn. rewrite lookup_union_r by done. by simplify_map_eq.
  - intros ->. rewrite Hdom, dom_empty_L. set_solver.
Qed.

Lemma log_entry_keys_witness :
  ∃ entry,
    Container.Logger_log (Container.NewLogger Container.INFO) Container.ERROR "failed"
      (<["msg" := VStr "overridden"]> ∅) w0 = emit (Json entry) w0
    ∧ entry !! "msg" = Some (VStr "overridden").
Proof.
  destruct (log_entry_keys (Container.NewLogger Container.INFO) Container.ERROR "failed"
              (<["msg" := VStr "overridden"]> ∅) w0)
    as (entry & H1 & _ & H3 & _).
  - cbn. unfold Container.INFO, Container.ERROR. lia.
  - exists entry. split; [exact H1 |]. apply H3. reflexivity.
Defined.

(** ** The status recorder and the middleware *)














Lemma requestID_out env σ : out (snd (Container.requestID env σ)) = out σ.
Proof. reflexivity. Qed.

(** The handler of the container service, with the wrapped mux unfolded:
    the mux leaves the process memory alone and the recorder ends at 200. *)
Lemma container_handler_eq lg env r σ :
  Container.handler lg env r σ
  = (Container.Logger_Info lg "request completed"
       (<["request_id" := VStr (fst (before_next lg env r σ))]>
          (<["method" := VStr (Method r)]>
             (<["path" := VStr (Path r)]>
                (<["status" := VInt 200]>
                   (<["duration" := VInt (Container.Milliseconds (elapsed_ns env))]> ∅)))))
       (snd (before_next lg env r σ)),
     W_HeaderSet "X-Request-Id" (fst (before_next lg env r σ))
       :: (if String.eqb (Path r) "/health"
           then [W_WriteHeader 200; W_Write "ok"]
           else [W_Write (greeting VContainer)])).
Proof.
  unfold Container.handler, Container.withMiddleware, before_next.
  destruct (if String.eqb (Header_Get (Header r) "X-Request-Id") "" then _ else _)
    as [rid σ1].
  cbn [fst snd]. unfold Container.mux, ServeMux.
  destruct (String.eqb (Path r) "/health"); reflexivity.
Qed.


Lemma AddUint64_moves (x : Z) : 0 <= x < uint64_mod → AddUint64 x 1 ≠ x.
Proof.
  unfold AddUint64, wrap64, uint64_mod. intros Hx H.
  destruct (Z.eq_dec x (2 ^ 64 - 1)) as [-> | Hne].
  - replace (2 ^ 64 - 1 + 1) with (2 ^ 64) in H by lia.
    rewrite Z.mod_same in H by lia. lia.
  - rewrite Z.mod_small in H by lia. lia.
Qed.

(** A request without an id of its own: the middleware generates one and
    the counter has moved by one when the handler returns. *)
Lemma container_handler_generates lg env r σ :
  Header_Get (Header r) "X-Request-Id" = "" →
  sent (respond (snd (Container.handler lg env r σ))) !! "X-Request-Id"
  = Some [fst (Container.requestID env σ)]
  ∧ reqCounter (fst (Container.handler lg env r σ)) = AddUint64 (reqCounter σ) 1.
Proof.
  intros Hin. rewrite container_handler_eq. cbn [fst snd].
  assert (Hb : before_next lg env r σ
               = (fst (Container.requestID env σ),
                  Container.Logger_Debug lg "request started"
                    (<["request_id" := VStr (fst (Container.requestID env σ))]>
                       (<["method" := VStr (Method r)]> (<["path" := VStr (Path r)]> ∅)))
                    (snd (Container.requestID env σ)))).
  { unfold before_next. by rewrite Hin. }
  rewrite Hb. cbn [fst snd]. split.
  - apply respond_carries_header. intros v'.
    destruct (String.eqb (Path r) "/health"); not_in_calls.
  - unfold Container.Logger_Info, Container.Logger_Debug.
    by rewrite !Logger_log_reqCounter.
Qed.

(** X6.  Request ids generated by the middleware do not repeat from one
    request to the next: for a request that brings no id, the id in the
    response starts with the new value of the counter in decimal (reading
    the digits back gives that value), the counter has moved, and a request
    handled at any other value of the counter gets a different id, whatever
    the random parts are. *)
Theorem generated_ids_differ (lg : Container.Logger) (env1 env2 : HEnv)
    (r1 r2 : Request) (σ σ' : World) :
  Header_Get (Header r1) "X-Request-Id" = "" →
  Header_Get (Header r2) "X-Request-Id" = "" →
  0 <= reqCounter σ < uint64_mod →
  0 <= reqCounter σ' < uint64_mod →
  let first := Container.handler lg env1 r1 σ in
  (∃ id, sent (respond (snd first)) !! "X-Request-Id" = Some [id]
         ∧ parse_decimal id 0 = Z.to_N (AddUint64 (reqCounter σ) 1))
  ∧ reqCounter (fst first) = AddUint64 (reqCounter σ) 1
  ∧ reqCounter (fst first) ≠ reqCounter σ
  ∧ (reqCounter σ' ≠ reqCounter σ →
     sent (respond (snd (Container.handler lg env2 r2 σ'))) !! "X-Request-Id"
     ≠ sent (respond (snd first)) !! "X-Request-Id")
  ∧ sent (respond (snd (Container.handler lg env2 r2 (fst first)))) !! "X-Request-Id"
    ≠ sent (respond (snd first)) !! "X-Request-Id".
Proof.
  intros H1 H2 Hσ Hσ'. cbn zeta.
  destruct (container_handler_generates lg env1 r1 σ H1) as [Hid1 Hc1].
  assert (Hother : ∀ s, 0 <= reqCounter s < uint64_mod → reqCounter s ≠ reqCounter σ →
            sent (respond (snd (Container.handler lg env2 r2 s))) !! "X-Request-Id"
            ≠ sent (respond (snd (Container.handler lg env1 r1 σ))) !! "X-Request-Id").
  { intros s Hs Hne.
    destruct (container_handler_generates lg env2 r2 s H2) as [Hid2 _].
    rewrite Hid1, Hid2. intros Heq. inversion Heq as [Hids].
    by apply (requestID_fresh env2 env1 s σ Hs Hσ Hne). }
  split; [| split; [done | split; [| split]]].
  - eexists. split; [exact Hid1 |]. cbn [Container.requestID fst].
    apply parse_FormatUint, AddUint64_range.
  - rewrite Hc1. by apply AddUint64_moves.
  - intros Hne. by apply Hother.
  - apply Hother.
    + rewrite Hc1. apply AddUint64_range.
    + rewrite Hc1. by apply AddUint64_moves.
Qed.

Lemma generated_ids_differ_witness :
  sent (respond (snd (Container.handler (Container.NewLogger Container.INFO)
                        Sample.henv0 Sample.get_root
                        (fst (Container.handler (Container.NewLogger Container.INFO)
                                Sample.henv0 Sample.get_root w0)))))
    !! "X-Request-Id"
  ≠ sent (respond (snd (Container.handler (Container.NewLogger Container.INFO)
                          Sample.henv0 Sample.get_root w0)))
      !! "X-Request-Id".
Proof.
  refine (proj2 (proj2 (proj2 (proj2
            (generated_ids_differ (Container.NewLogger Container.INFO)
               Sample.henv0 Sample.henv0 Sample.get_root Sample.get_root w0 w0 _ _ _ _))))).
  - reflexivity.
  - reflexivity.
  - unfold uint64_mod. simpl. lia.
  - unfold uint64_mod. simpl. lia.
Defined.

(** ** The heartbeat *)

(** X7.  The "uptime" in a heartbeat line is the ticker interval plus the
    time the tick waited to be received, cut down to whole seconds: it does
    not depend on how long the process has run.  With an interval of whole
    seconds and a tick received within a second it is always the interval
    itself.  The line reports the request counter as it is and changes
    nothing else of the process memory. *)
Theorem heartbeat_uptime_is_interval (interval lag : Z) (σ : World) :
  0 <= interval →
  0 <= lag →
  ∃ u,
    Heartbeat.heartbeat interval lag σ
    = emit (Printf "heartbeat alive=true uptime=%s requests=%d"
              [VDur u; VInt (requestCount σ)]) σ
    ∧ u mod Heartbeat.second_ns = 0
    ∧ u <= lag + interval < u + Heartbeat.second_ns
    ∧ (interval mod Heartbeat.second_ns = 0 → lag < Heartbeat.second_ns → u = interval)
    ∧ (∀ σ', ∃ l, Heartbeat.heartbeat interval lag σ' = emit (Printf l [VDur u; VInt (requestCount σ')]) σ').
Proof.
  intros Hi Hl. exists (Heartbeat.Truncate_second (lag + interval)).
  split; [reflexivity |].
  assert (Hq : Heartbeat.Truncate_second (lag + interval)
               = (lag + interval) / 1000000000 * 1000000000).
  { unfold Heartbeat.Truncate_second, Heartbeat.second_ns.
    by rewrite Z.quot_div_nonneg by lia. }
  unfold Heartbeat.second_ns. rewrite Hq.
  split; [apply Z.mod_mul; lia |]. split; [| split].
  - pose proof (Z.div_mod (lag + interval) 1000000000 ltac:(lia)) as Hdm.
    pose proof (Z.mod_pos_bound (lag + interval) 1000000000 ltac:(lia)). lia.
  - intros Hm Hlt.
    pose proof (Z.div_mod interval 1000000000 ltac:(lia)) as Hdm. rewrite Hm in Hdm.
    replace (lag + interval) with (lag + (interval / 1000000000) * 1000000000) by lia.
    rewrite Z.div_add by lia. rewrite (Z.div_small lag) by lia. lia.
  - intros σ'. eexists. rewrite <- Hq. reflexivity.
Qed.

Lemma heartbeat_uptime_is_interval_witness :
  ∃ u,
    Heartbeat.heartbeat (5 * Heartbeat.second_ns) 3000000 Sample.world_full
    = emit (Printf "heartbeat alive=true uptime=%s requests=%d"
              [VDur u; VInt (requestCount Sample.world_full)]) Sample.world_full
    ∧ u = 5 * Heartbeat.second_ns.
Proof.
  destruct (heartbeat_uptime_is_interval (5 * Heartbeat.second_ns) 3000000 Sample.world_full)
    as (u & H1 & _ & _ & H4 & _).
  - unfold Heartbeat.second_ns. lia.
  - lia.
  - exists u. split; [exact H1 |]. apply H4.
    + reflexivity.
    + unfold Heartbeat.second_ns. lia.
Defined.

(** ** The responses of the three services *)






(** ** The request counter and the responses of the heartbeat service *)




Lemma wrap64_range (a : Z) : 0 <= wrap64 a < uint64_mod.
Proof. unfold wrap64. apply Z.mod_pos_bound. reflexivity. Qed.





Example requestCount_counts_one_of_two :
  let p := Sample.after VHeartbeat
             [EvGo; EvBound; EvDial 1 Sample.get_root Sample.henv0;
              EvDial 1 Sample.get_health Sample.henv0; EvTick] in
  requestCount (world p) = 1 ∧ length (served p) = 2%nat.
Proof. vm_compute. split; reflexivity. Qed.

(** ** The failure exit *)




(** ** The request log of the basic service *)






(** ** After a clean stop *)




(** ** The log of the container service *)

(** What handlers keep of the process memory, the connections keep. *)
Lemma tick_conns_world (Q : World → Prop) (h : Handler) :
  (∀ env r σ, Q σ → Q (fst (h env r σ))) →
  ∀ cs σ, Q σ → Q (snd (fst (tick_conns h cs σ))).
Proof.
  intros HQ cs. induction cs as [| c cs IH]; intros σ Hσ; cbn [tick_conns]; [done |].
  destruct (remaining c) as [| [| k]].
  - pose proof (HQ (henv c) (request c) σ Hσ) as H1.
    destruct (h (henv c) (request c) σ) as [σ1 calls]. specialize (IH σ1 H1).
    by destruct (tick_conns h cs σ1) as [[rest σ'] rs].
  - pose proof (HQ (henv c) (request c) σ Hσ) as H1.
    destruct (h (henv c) (request c) σ) as [σ1 calls]. specialize (IH σ1 H1).
    by destruct (tick_conns h cs σ1) as [[rest σ'] rs].
  - specialize (IH σ Hσ). by destruct (tick_conns h cs σ) as [[rest σ'] rs].
Qed.

Lemma Logger_log_allowed lg lvl msg fields σ :
  Container.DEBUG <= lvl <= Container.ERROR →
  fields !! "level" = None →
  Forall (allowed_line lg) (out σ) →
  Forall (allowed_line lg) (out (Container.Logger_log lg lvl msg fields σ)).
Proof.
  intros Hlvl Hf Hσ.
  destruct (Logger_log_cases lg lvl msg fields σ) as [[_ ->] | [Hle ->]]; [done |].
  cbn [emit out]. apply Forall_app. split; [done |].
  constructor; [| constructor].
  eexists _, lvl. split; [reflexivity |]. split; [done |]. split; [done |].
  rewrite lookup_union_r by done. by simplify_map_eq.
Qed.

Lemma container_handler_allowed lg env r σ :
  Forall (allowed_line lg) (out σ) →
  Forall (allowed_line lg) (out (fst (Container.handler lg env r σ))).
Proof.
  intros Hσ. rewrite container_handler_eq. cbn [fst].
  unfold Container.Logger_Info. apply Logger_log_allowed.
  - unfold Container.DEBUG, Container.INFO, Container.ERROR. lia.
  - by simplify_map_eq.
  - unfold before_next. cbn [snd]. unfold Container.Logger_Debug.
    apply Logger_log_allowed.
    + unfold Container.DEBUG, Container.ERROR. lia.
    + by simplify_map_eq.
    + by destruct (String.eqb _ _).
Qed.

(** X13.  The container service never prints a line below the configured
    level: every line of its output is a JSON entry whose "level" is one of
    "debug", "info", "warn", "error" and not below the level parsed from
    [LOG_LEVEL]; this holds for the lines of [main], of the serving
    goroutine and of the middleware alike. *)
Theorem container_log_respects_level (e : OsEnv) (p : Proc) :
  reachable VContainer e p →
  Forall (allowed_line (logger e)) (out (world p)).
Proof.
  intros [evs Hr].
  refine (run_invariant
            (fun q => Forall (allowed_line (logger e)) (out (world q)))
            VContainer e _ evs _ _ _ Hr).
  - intros q ev q' IH Hs.
    assert (Hlog : ∀ lvl msg fields,
              Container.DEBUG <= lvl <= Container.ERROR →
              fields !! "level" = None →
              Forall (allowed_line (logger e))
                (out (Container.Logger_log (logger e) lvl msg fields (world q)))).
    { intros lvl msg fields H1 H2. by apply Logger_log_allowed. }
    assert (Htick : ∀ pc, Forall (allowed_line (logger e))
                            (out (world (tick_proc VContainer e pc q)))).
    { intros pc. unfold tick_proc. cbn [handler].
      pose proof (tick_conns_world
                    (fun σ => Forall (allowed_line (logger e)) (out σ))
                    (Container.handler (logger e))
                    (container_handler_allowed (logger e))
                    (conns (server q)) (advance (world q)) IH) as Ht.
      by destruct (tick_conns _ _ _) as [[cs σ'] rs]. }
    unfold step in Hs. destruct (negb (alive q)); [discriminate |].
    destruct ev;
      repeat match type of Hs with
        | match ?x with _ => _ end = Some _ => destruct x eqn:?
        | (if ?x then _ else _) = Some _ => destruct x eqn:?
        end; try discriminate; inversion Hs; subst; clear Hs;
      try apply Htick;
      cbn [world exit_with set_world log_listening log_signal log_outcome
             log_listen_error];
      try match goal with |- context [log_outcome _ _ ?o _] =>
            destruct o; cbn [log_outcome] end;
      try done;
      unfold Container.Logger_Info, Container.Logger_Warn, Container.Logger_Error;
      apply Hlog; try (by simplify_map_eq);
      unfold Container.DEBUG, Container.INFO, Container.WARN, Container.ERROR; lia.
  - cbn [proc_init world startup].
    destruct (0 <? startupDelay e); [| constructor].
    cbn [sleep out]. unfold Container.Logger_Info. apply Logger_log_allowed.
    + unfold Container.DEBUG, Container.INFO, Container.ERROR. lia.
    + by simplify_map_eq.
    + constructor.
Qed.

Lemma container_log_respects_level_witness :
  Forall (allowed_line (logger Sample.env0))
    (out (world (Sample.after VContainer Sample.bind_failure))).
Proof.
  refine (container_log_respects_level Sample.env0 _ _).
  exists Sample.bind_failure. reflexivity.
Defined.
